(** * Asyncify: suspend/resume wrappers around a synchronous WebAssembly instance

    Shallow embedding of [src/asyncify.mjs].  JavaScript values are a small
    inductive type, the instance-wide mutable state (the [Asyncify] object, the
    engine's asyncify state, linear memory, globals) is threaded explicitly
    through a state-and-exception monad, and the [while]/[await] loop of the
    export wrapper runs on fuel. *)

From Stdlib Require Import ZArith String List Bool Lia.
From stdpp Require Import base gmap strings list.

Local Open Scope Z_scope.

(** ** JavaScript values *)

(** The values the wrappers look at.  Numbers are the integral ones (every
    number has the same [typeof]); an object carries its identity, whether it
    is callable, and the value of its [then] property ([VUndefined] when the
    property is absent). *)
Inductive Val : Type :=
| VUndefined
| VNull
| VBool (b : bool)
| VNum (n : Z)
| VBigInt (n : Z)
| VStr (s : string)
| VSymbol (id : nat)
| VObject (id : nat) (callable : bool) (then_ : Val).

Inductive JsType : Type :=
| TyUndefined | TyObject | TyBoolean | TyNumber | TyBigInt | TyString | TySymbol
| TyFunction.

Definition JsType_eqb (a b : JsType) : bool :=
  match a, b with
  | TyUndefined, TyUndefined | TyObject, TyObject | TyBoolean, TyBoolean
  | TyNumber, TyNumber | TyBigInt, TyBigInt | TyString, TyString
  | TySymbol, TySymbol | TyFunction, TyFunction => true
  | _, _ => false
  end.

(** [typeof v] *)
Definition typeof (v : Val) : JsType :=
  match v with
  | VUndefined => TyUndefined
  | VNull => TyObject
  | VBool _ => TyBoolean
  | VNum _ => TyNumber
  | VBigInt _ => TyBigInt
  | VStr _ => TyString
  | VSymbol _ => TySymbol
  | VObject _ true _ => TyFunction
  | VObject _ false _ => TyObject
  end.

(** [!!v] *)
Definition truthy (v : Val) : bool :=
  match v with
  | VUndefined | VNull => false
  | VBool b => b
  | VNum n => negb (n =? 0)
  | VBigInt n => negb (n =? 0)
  | VStr s => negb (String.eqb s EmptyString)
  | VSymbol _ => true
  | VObject _ _ _ => true
  end.

(** [v.then]; only ever evaluated on a truthy object or function, the
    primitives' prototypes have no such property. *)
Definition get_then (v : Val) : Val :=
  match v with
  | VObject _ _ t => t
  | _ => VUndefined
  end.

(** <<
function isPromise(obj) {
  return (
    !!obj &&
    (typeof obj === 'object' || typeof obj === 'function') &&
    typeof obj.then === 'function'
  );
}
>> *)
Definition isPromise (obj : Val) : bool :=
  truthy obj
  && (JsType_eqb (typeof obj) TyObject || JsType_eqb (typeof obj) TyFunction)
  && JsType_eqb (typeof (get_then obj)) TyFunction.

(** <<
const DATA_ADDR = 16;
const DATA_START = DATA_ADDR + 8;
const DATA_END = 1024;
>> *)
Definition DATA_ADDR : Z := 16.
Definition DATA_START : Z := DATA_ADDR + 8.
Definition DATA_END : Z := 1024.

(** <<
const State = { None: 0, Unwinding: 1, Rewinding: 2 };
>> *)
Module State.
Definition None : Z := 0.
Definition Unwinding : Z := 1.
Definition Rewinding : Z := 2.
End State.

(** ** Exceptions *)

(** [InvalidAsyncState s] is the [Error] raised by [assertNoneState], whose
    message is [Invalid async state s, expected 0.] (the specification's
    ProtocolStateError); [Thrown] is any other exception value. *)
Inductive Err : Type :=
| InvalidAsyncState (state : Z)
| TypeError
| RangeError
| Thrown (reason : Val).

(** ** Typed-array views and the stack-update hook *)

(** [ToInt32] on an integral number. *)
Definition to_int32 (n : Z) : Z := (n + 2 ^ 31) mod 2 ^ 32 - 2 ^ 31.

(** [new Int32Array(buffer, byteOffset, length)]: the view keeps the
    [ArrayBuffer] it was made on: [Some b] is the buffer of identity [b] of a
    [WebAssembly.Memory], [None] a new buffer of the array's own. *)
Record Int32Array : Type :=
  { view_buffer : option nat; byteOffset : Z; view_length : Z }.

(** What an exports or imports object binds a name to: a function (of type
    [F]), a [WebAssembly.Global] holding an [i32] (named by its index in the
    instance, where its current value lives), the [WebAssembly.Memory] or a
    [WebAssembly.Table]. *)
Inductive ExportVal (F : Type) : Type :=
| ExFunction (fn : F)
| ExGlobal (g : nat)
| ExMemory
| ExTable.
Arguments ExFunction {F} fn.
Arguments ExGlobal {F} g.
Arguments ExMemory {F}.
Arguments ExTable {F}.

Definition export_map {F G : Type} (f : F -> G) (e : ExportVal F) : ExportVal G :=
  match e with
  | ExFunction fn => ExFunction (f fn)
  | ExGlobal g => ExGlobal g
  | ExMemory => ExMemory
  | ExTable => ExTable
  end.

(** The closure [()=>{ data_start_end[1] = exports.__stack_pointer; }]: it
    captures the view and the export it reads (a function by its identity). *)
Record Hook : Type := { hook_view : Int32Array; hook_source : ExportVal nat }.

(** ** The world a call runs in *)

(** Control operations as the engine receives them. *)
Inductive EngineOp : Type :=
| StartUnwind (addr : Z)
| StopUnwind
| StartRewind (addr : Z)
| StopRewind.

(** The sandboxed instance seen from the host: the asyncify state word and
    data pointer of the instrumented module, the control operations it has
    received so far (oldest first), its linear memory as 32-bit words keyed by
    byte address (absent = 0), the identity of the [ArrayBuffer] that
    [memory.buffer] currently is (growing the memory detaches it and puts a
    new one in its place), the size of the buffer, and its globals. *)
Record ModuleInstance : Type := {
  asyncify_state : Z;
  asyncify_data : Z;
  control_log : list EngineOp;
  memory : gmap Z Z;
  buffer : nat;
  buffer_bytes : Z;
  globals : gmap nat Z
}.

(** The fields of [class Asyncify] that the wrappers read and write, for an
    instance that [init] has wired.  [this.exports] is the wrapped export
    surface, through which the class only reaches the [asyncify_*] operations
    of an instrumented module; those are never wrapped (see [wrapExports])
    and are modelled by the engine operations below. *)
Record Asyncify : Type := {
  value : Val;
  data_addr : Z;
  update_stack_area : option Hook
}.

Section World.

(** State of the embedder that host functions close over, and state private
    to the module (its suspended frames). *)
Context {Host Frames : Type}.

Record World : Type := {
  instance : ModuleInstance;
  this : Asyncify;
  host : Host;
  frames : Frames
}.

Definition with_instance (i : ModuleInstance) (w : World) : World :=
  {| instance := i; this := this w; host := host w; frames := frames w |}.
Definition with_this (a : Asyncify) (w : World) : World :=
  {| instance := instance w; this := a; host := host w; frames := frames w |}.
Definition with_host (h : Host) (w : World) : World :=
  {| instance := instance w; this := this w; host := h; frames := frames w |}.
Definition with_frames (f : Frames) (w : World) : World :=
  {| instance := instance w; this := this w; host := host w; frames := f |}.

(** *** Outcomes and the monad *)

(** A call returns, throws, or never completes (a diverging callee, a
    promise that never settles).  For an [async] function the same three
    outcomes read: the returned promise is fulfilled, is rejected, stays
    pending. *)
Inductive Res (A : Type) : Type :=
| Ok (a : A) (w : World)
| Throw (e : Err) (w : World)
| Never.
Global Arguments Ok {A} a w.
Global Arguments Throw {A} e w.
Global Arguments Never {A}.

Definition M (A : Type) : Type := World -> Res A.

Definition ret {A} (a : A) : M A := fun w => Ok a w.
Definition throw {A} (e : Err) : M A := fun w => Throw e w.
Definition bind {A B} (m : M A) (k : A -> M B) : M B :=
  fun w => match m w with
           | Ok a w' => k a w'
           | Throw e w' => Throw e w'
           | Never => Never
           end.
Definition gets {A} (f : World -> A) : M A := fun w => Ok (f w) w.
Definition modify (f : World -> World) : M unit := fun w => Ok tt (f w).

End World.

Arguments World : clear implicits.
Arguments Res : clear implicits.
Arguments M : clear implicits.

Declare Scope js_scope.
Delimit Scope js_scope with js.
Notation "'let*' x ':=' m 'in' k" := (bind m (fun x => k))
  (at level 10, x name, m at level 100, k at level 200) : js_scope.
Open Scope js_scope.


(** ** The engine and the controller *)

Section Wrappers.

Context {Host Frames : Type}.
Local Abbreviation World := (World Host Frames).
Local Abbreviation M := (M Host Frames).
Local Abbreviation Res := (Res Host Frames).

(** *** The engine's asyncify interface

    The instrumented module is outside the repository.  Its state query and
    four control operations are modelled by what they do to the asyncify
    state word: [start_unwind]/[start_rewind] enter Unwinding/Rewinding and
    record the descriptor address (an [i32] parameter), the two [stop]
    operations return to None.  Each call is appended to [control_log].  The
    save area is taken to be large enough: the trap of an engine that runs
    out of it is not modelled. *)

Definition control (op : EngineOp) (st : Z) (data : Z) (i : ModuleInstance)
  : ModuleInstance :=
  {| asyncify_state := st;
     asyncify_data := data;
     control_log := control_log i ++ [op];
     memory := memory i;
     buffer := buffer i;
     buffer_bytes := buffer_bytes i;
     globals := globals i |}.

Definition on_instance (f : ModuleInstance -> ModuleInstance) : M unit :=
  modify (fun w => with_instance (f (instance w)) w).

Definition asyncify_get_state : M Z :=
  gets (fun w => asyncify_state (instance w)).
Definition asyncify_start_unwind (addr : Z) : M unit :=
  on_instance (control (StartUnwind addr) State.Unwinding (to_int32 addr)).
Definition asyncify_stop_unwind : M unit :=
  on_instance (fun i => control StopUnwind State.None (asyncify_data i) i).
Definition asyncify_start_rewind (addr : Z) : M unit :=
  on_instance (control (StartRewind addr) State.Rewinding (to_int32 addr)).
Definition asyncify_stop_rewind : M unit :=
  on_instance (fun i => control StopRewind State.None (asyncify_data i) i).

(** *** Linear memory through an [Int32Array] *)

Definition with_memory (m : gmap Z Z) (i : ModuleInstance) : ModuleInstance :=
  {| asyncify_state := asyncify_state i;
     asyncify_data := asyncify_data i;
     control_log := control_log i;
     memory := m;
     buffer := buffer i;
     buffer_bytes := buffer_bytes i;
     globals := globals i |}.

Definition in_view (v : Int32Array) (k : Z) : bool :=
  (0 <=? k) && (k <? view_length v).

(** A view on a memory's buffer is usable as long as that buffer is still the
    memory's buffer; once detached, every index is out of range.  A buffer of
    the array's own is never detached. *)
Definition attached (v : Int32Array) (i : ModuleInstance) : bool :=
  match view_buffer v with
  | Some b => Nat.eqb b (buffer i)
  | Datatypes.None => true
  end.

(** [view[k]]: [None] is [undefined] (index out of range, buffer detached). *)
Definition view_get (v : Int32Array) (k : Z) (i : ModuleInstance) : option Z :=
  if attached v i && in_view v k
  then Some (default 0 (memory i !! (byteOffset v + 4 * k)))
  else Datatypes.None.

(** [view[k] = n] for a number [n]; [None] is [NaN], stored as 0.  Out of
    range, or on a detached buffer, the store is ignored. *)
Definition view_set (v : Int32Array) (k : Z) (n : option Z) (i : ModuleInstance)
  : ModuleInstance :=
  if attached v i && in_view v k
  then with_memory (<[byteOffset v + 4 * k := to_int32 (default 0 n)]> (memory i)) i
  else i.


(** [e.value] as a number: the value of a [WebAssembly.Global]; [undefined]
    (hence [NaN]) on the other kinds of export. *)
Definition export_value {F} (i : ModuleInstance) (e : ExportVal F) : option Z :=
  match e with
  | ExGlobal g => Some (default 0 (globals i !! g))
  | _ => Datatypes.None
  end.

(** [ToNumber(e)] for a raw export [e] assigned to a typed-array element:
    [WebAssembly.Global.prototype.valueOf] returns the global's value, the
    other kinds of export convert to [NaN]. *)
Definition export_to_number {F} (i : ModuleInstance) (e : ExportVal F) : option Z :=
  match e with
  | ExGlobal g => Some (default 0 (globals i !! g))
  | _ => Datatypes.None
  end.

(** Calling the hook: [data_start_end[1] = exports.__stack_pointer], on the
    view the hook captured when [init] made it.  Once the memory has grown
    that view is detached and the store does nothing. *)
Definition call_hook (h : Hook) : M unit :=
  on_instance (fun i => view_set (hook_view h) 1 (export_to_number i (hook_source h)) i).

(** *** [class Asyncify] *)

Definition set_value (v : Val) : M unit :=
  modify (fun w => with_this {| value := v;
                                 data_addr := data_addr (this w);
                                 update_stack_area := update_stack_area (this w) |} w).

(** <<
getState() { return this.exports.asyncify_get_state(); }
>> *)
Definition getState : M Z := asyncify_get_state.

(** <<
assertNoneState() {
  let state = this.getState();
  if (state !== State.None) {
    throw new Error(`Invalid async state ${state}, expected 0.`);
  }
}
>> *)
Definition assertNoneState : M unit :=
  let* state := getState in
  if negb (state =? State.None) then throw (InvalidAsyncState state)
  else ret tt.

(** A JavaScript function: arguments in, a result or an exception out, with
    whatever it does to the world. *)
Definition JsFn : Type := list Val -> M Val.

(** <<
wrapImportFn(fn) {
  return (...args) => {
    if (this.getState() === State.Rewinding) {
      this.exports.asyncify_stop_rewind();
      return this.value;
    }
    this.assertNoneState();
    let value = fn(...args);
    if (!isPromise(value)) {
      return value;
    }
    this.update_stack_area?.();
    this.exports.asyncify_start_unwind(this.data_addr);
    this.value = value;
  };
}
>> *)
Definition wrapImportFn_closure (fn : JsFn) : JsFn := fun args =>
  let* state := getState in
  if state =? State.Rewinding then
    let* _ := asyncify_stop_rewind in
    gets (fun w => value (this w))
  else
    let* _ := assertNoneState in
    let* value := fn args in
    if negb (isPromise value) then ret value
    else
      let* hook := gets (fun w => update_stack_area (this w)) in
      let* _ := match hook with
                | Some h => call_hook h
                | Datatypes.None => ret tt
                end in
      let* addr := gets (fun w => data_addr (this w)) in
      let* _ := asyncify_start_unwind addr in
      let* _ := set_value value in
      ret VUndefined.

(** *** The export wrapper *)

(** [await v]: the host's scheduler.  The awaited value is fulfilled with a
    value ([Ok]), rejected ([Throw]) or never settles ([Never]); the world
    at resumption is whatever the work interleaved meanwhile left. *)
Variable await_ : Val -> M Val.

(** One turn of the [while] body:
    <<
      this.exports.asyncify_stop_unwind();
      this.value = await this.value;
      this.assertNoneState();
      this.exports.asyncify_start_rewind(this.data_addr);
      result = fn(...args);
    >> *)
Definition loop_body (fn : JsFn) (args : list Val) : M Val :=
  let* _ := asyncify_stop_unwind in
  let* pending := gets (fun w => value (this w)) in
  let* settled := await_ pending in
  let* _ := set_value settled in
  let* _ := assertNoneState in
  let* addr := gets (fun w => data_addr (this w)) in
  let* _ := asyncify_start_rewind addr in
  fn args.

(** <<
    while (this.getState() === State.Unwinding) { ... }
    this.assertNoneState();
    return result;
    >>
    The loop test reads the state through [getState];
    [None] when [fuel] turns of the loop were not enough. *)
Fixpoint export_loop (fuel : nat) (fn : JsFn) (args : list Val) (result : Val)
         (w : World) : option (Res Val) :=
  match fuel with
  | O => Datatypes.None
  | S fuel' =>
      match getState w with
      | Ok state _ =>
          if state =? State.Unwinding then
            match loop_body fn args w with
            | Ok result' w' => export_loop fuel' fn args result' w'
            | Throw e w' => Some (Throw e w')
            | Never => Some Never
            end
          else Some ((let* _ := assertNoneState in ret result) w)
      | Throw e w' => Some (Throw e w')
      | Never => Some Never
      end
  end.

(** <<
  newExport = async (...args) => {
    this.assertNoneState();
    let result = fn(...args);
    while ...
    this.assertNoneState();
    return result;
  };
>>
    The outcome is the settlement of the promise the [async] function
    returns: fulfilled with the returned [result] (a module export returns a
    number, never a thenable the promise would adopt), or rejected with what
    was thrown. *)
Definition newExport (fuel : nat) (fn : JsFn) (args : list Val) (w : World)
  : option (Res Val) :=
  match (let* _ := assertNoneState in fn args) w with
  | Ok result w' => export_loop fuel fn args result w'
  | Throw e w' => Some (Throw e w')
  | Never => Some Never
  end.


(** *** Function objects and the wrapper registry *)

(** An ordinary function object: its identity and what a call does.  Host
    functions (an [async] one returns its promise as a value), raw exports of
    the module and import wrappers are of this kind. *)
Record Function : Type := { fun_id : nat; fun_call : JsFn }.

(** The function object an [async (...args) => { ... }] expression creates.
    A call hands back a promise; [async_call fuel args w] is how that promise
    settles when the call is made in world [w]. *)
Record AsyncFunction : Type := {
  async_id : nat;
  async_call : nat -> list Val -> World -> option (Res Val)
}.

(** A function found on the wrapped export surface. *)
Inductive Callable : Type :=
| Plain (f : Function)
| Async (f : AsyncFunction).

(** An exports object: its identity and its enumerable properties in order. *)
Record Exports (F : Type) : Type := {
  exports_id : nat;
  entries : list (string * ExportVal F)
}.
Arguments exports_id {F} e.
Arguments entries {F} e.

(** An object as the target of a [Proxy]: its properties, read without
    running code, and the names it holds as an own property that is neither
    configurable nor writable (every member of a frozen object, every member
    of the exports object of another instance).  What a [get] trap reports
    for such a name has to be the property's own value. *)
Record Target (A : Type) : Type := {
  target_props : list (string * A);
  locked : string -> bool
}.
Arguments target_props {A} t.
Arguments locked {A} t name.

(** [Object.create(null)] *)
Definition empty_target {A : Type} : Target A :=
  {| target_props := []; locked := fun _ => false |}.

(** [SameValue] on what an imports table binds a name to; [None] is
    [undefined]. *)
Definition same_value {F : Type} (same_function : F -> F -> bool)
           (a b : option (ExportVal F)) : bool :=
  match a, b with
  | Datatypes.None, Datatypes.None => true
  | Some (ExFunction f), Some (ExFunction g) => same_function f g
  | Some (ExGlobal x), Some (ExGlobal y) => Nat.eqb x y
  | Some ExMemory, Some ExMemory => true
  | Some ExTable, Some ExTable => true
  | _, _ => false
  end.

(** [const WRAPPED_EXPORTS = new WeakMap()], shared by all instances, and the
    supply of fresh object identities.  The map is private to the file and
    only ever receives the pairs [fn -> newExport] and [exports -> newExports];
    functions and exports objects are different objects, so the one
    identity-keyed map is kept as two. *)
Record Heap : Type := {
  next_id : nat;
  WRAPPED_EXPORTS : gmap nat AsyncFunction;
  WRAPPED_EXPORTS_objects : gmap nat (Exports Callable)
}.

Definition Alloc (A : Type) : Type := Heap -> A * Heap.

Definition fresh : Alloc nat := fun h =>
  (next_id h,
   {| next_id := S (next_id h);
      WRAPPED_EXPORTS := WRAPPED_EXPORTS h;
      WRAPPED_EXPORTS_objects := WRAPPED_EXPORTS_objects h |}).

Definition weak_set (k : nat) (f : AsyncFunction) (h : Heap) : Heap :=
  {| next_id := next_id h;
     WRAPPED_EXPORTS := <[k := f]> (WRAPPED_EXPORTS h);
     WRAPPED_EXPORTS_objects := WRAPPED_EXPORTS_objects h |}.

Definition weak_set_object (k : nat) (e : Exports Callable) (h : Heap) : Heap :=
  {| next_id := next_id h;
     WRAPPED_EXPORTS := WRAPPED_EXPORTS h;
     WRAPPED_EXPORTS_objects := <[k := e]> (WRAPPED_EXPORTS_objects h) |}.

(** [wrapImportFn(fn)]: evaluating the arrow function creates a new function
    object each time; its behaviour is [wrapImportFn_closure]. *)
Definition wrapImportFn (fn : Function) : Alloc Function := fun h =>
  let (id, h') := fresh h in
  ({| fun_id := id; fun_call := wrapImportFn_closure (fun_call fn) |}, h').

(** <<
  wrapExportFn(fn) {
    let newExport = WRAPPED_EXPORTS.get(fn);
    if (newExport !== undefined) {
      return newExport;
    }
    newExport = async (...args) => { ... };
    WRAPPED_EXPORTS.set(fn, newExport);
    return newExport;
  }
>> *)
Definition wrapExportFn (fn : Function) : Alloc AsyncFunction := fun h =>
  match WRAPPED_EXPORTS h !! fun_id fn with
  | Some cached => (cached, h)
  | Datatypes.None =>
      let (id, h') := fresh h in
      let wrapper :=
        {| async_id := id;
           async_call := fun fuel => newExport fuel (fun_call fn) |} in
      (wrapper, weak_set (fun_id fn) wrapper h')
  end.

(** [exportName.startsWith('asyncify_')] *)
Definition startsWith_asyncify (exportName : string) : bool :=
  String.prefix "asyncify_" exportName.

(** The body of the [for (let exportName in exports)] loop, for one property:
    <<
      let value = exports[exportName];
      if (typeof value === 'function' && !exportName.startsWith('asyncify_')) {
        value = this.wrapExportFn(value);
      }
      Object.defineProperty(newExports, exportName, { enumerable: true, value });
    >> *)
Definition wrapExport (exportName : string) (value : ExportVal Function)
  : Alloc (ExportVal Callable) := fun h =>
  match value with
  | ExFunction fn =>
      if negb (startsWith_asyncify exportName)
      then let (w, h') := wrapExportFn fn h in (ExFunction (Async w), h')
      else (ExFunction (Plain fn), h)
  | ExGlobal g => (ExGlobal g, h)
  | ExMemory => (ExMemory, h)
  | ExTable => (ExTable, h)
  end.

Fixpoint wrapExports_loop (props : list (string * ExportVal Function))
  : Alloc (list (string * ExportVal Callable)) := fun h =>
  match props with
  | [] => ([], h)
  | (exportName, value) :: rest =>
      let (value', h1) := wrapExport exportName value h in
      let (rest', h2) := wrapExports_loop rest h1 in
      ((exportName, value') :: rest', h2)
  end.

(** <<
  wrapExports(exports) {
    let newExports = Object.create(null);
    for (let exportName in exports) { ... }
    WRAPPED_EXPORTS.set(exports, newExports);
    return newExports;
  }
>> *)
Definition wrapExports (exports : Exports Function) : Alloc (Exports Callable) :=
  fun h =>
  let (id, h0) := fresh h in
  let (props, h1) := wrapExports_loop (entries exports) h0 in
  let newExports := {| exports_id := id; entries := props |} in
  (newExports, weak_set_object (exports_id exports) newExports h1).

(** [obj[name]] on an exports or imports object; [None] is [undefined]. *)
Fixpoint lookup_prop {A} (name : string) (props : list (string * A)) : option A :=
  match props with
  | [] => Datatypes.None
  | (n, v) :: rest => if String.eqb n name then Some v else lookup_prop name rest
  end.

(** <<
function proxyGet(obj, transform) {
  return new Proxy(obj, {
    get: (obj, name) => transform(obj[name])
  });
}
>>
    The proxy is the function from a property name to what reading that
    property yields.  The trap runs first: [transform] gets the target's
    value ([None] is [undefined]) and may create objects.  Then the proxy
    checks the trap's report against the target: for a locked name the report
    has to be the same value as the target's, or the read throws a
    [TypeError].  [same] says whether a report is the value it was made
    from. *)
Definition proxyGet {A B : Type} (same : option A -> B -> bool)
           (obj : Target A) (transform : option A -> Alloc B)
  : string -> Alloc (Err + B) :=
  fun name h =>
    let value := lookup_prop name (target_props obj) in
    let (report, h') := transform value h in
    if locked obj name && negb (same value report)
    then (inl TypeError, h')
    else (inr report, h').

(** <<
  wrapModuleImports(module) {
    return proxyGet(module, value => {
      if (typeof value === 'function') {
        return this.wrapImportFn(value);
      }
      return value;
    });
  }
>> *)
Definition wrapModuleImports (module : Target (ExportVal Function))
  : string -> Alloc (Err + option (ExportVal Function)) :=
  proxyGet (same_value (fun f g => Nat.eqb (fun_id f) (fun_id g))) module
    (fun value h =>
       match value with
       | Some (ExFunction fn) =>
           let (w, h') := wrapImportFn fn h in (Some (ExFunction w), h')
       | other => (other, h)
       end).

(** <<
  wrapImports(imports) {
    if (imports === undefined) return;
    return proxyGet(imports, (moduleImports = Object.create(null)) =>
      this.wrapModuleImports(moduleImports)
    );
  }
>>
    The outer proxy hands out a proxy for the module's table (for an empty
    one when the table is missing); a proxy just made is never the value the
    target holds. *)
Definition wrapImports (imports : option (Target (Target (ExportVal Function))))
  : option (string -> Alloc (Err + (string -> Alloc (Err + option (ExportVal Function))))) :=
  match imports with
  | Datatypes.None => Datatypes.None
  | Some imports =>
      Some (proxyGet (fun _ _ => false) imports
              (fun moduleImports h =>
                 (wrapModuleImports (default empty_target moduleImports), h)))
  end.

(** [wrapped[moduleName][name]], the read the engine makes for each import
    of the module. *)
Definition read_import {A : Type}
           (wrapped : string -> Alloc (Err + (string -> Alloc (Err + A))))
           (moduleName name : string) : Alloc (Err + A) :=
  fun h =>
    match wrapped moduleName h with
    | (inl e, h') => (inl e, h')
    | (inr module, h') => module name h'
    end.

(** *** Instance wiring *)

Definition set_data_addr (addr : Z) : M unit :=
  modify (fun w => with_this {| value := value (this w);
                                 data_addr := addr;
                                 update_stack_area := update_stack_area (this w) |} w).

Definition set_update_stack_area (h : Hook) : M unit :=
  modify (fun w => with_this {| value := value (this w);
                                 data_addr := data_addr (this w);
                                 update_stack_area := Some h |} w).

(** [new Int32Array(memory.buffer, byteOffset, length)].  On a
    [WebAssembly.Memory] the constructor views the memory's current buffer and
    throws a [RangeError] for a negative or misaligned offset or a view past
    the end of the buffer; on any other object [memory.buffer] is [undefined]
    and the constructor makes an array of length 0 (on a buffer of its
    own). *)
Definition new_Int32Array {F} (memory_ : ExportVal F) (offset length : Z)
  : M Int32Array :=
  match memory_ with
  | ExMemory =>
      let* i := gets (fun w => instance w) in
      if (offset <? 0) || negb (offset mod 4 =? 0) || (buffer_bytes i <? offset + 4 * length)
      then throw RangeError
      else ret {| view_buffer := Some (buffer i); byteOffset := offset;
                  view_length := length |}
  | _ => ret {| view_buffer := Datatypes.None; byteOffset := 0; view_length := 0 |}
  end.

(** [!view[k]] *)
Definition is_falsy_word (x : option Z) : bool :=
  match x with
  | Some n => n =? 0
  | Datatypes.None => true
  end.

(** [view.set([a, b])]: a [TypeError] on a detached buffer, a [RangeError]
    when the source does not fit. *)
Definition view_set_pair (v : Int32Array) (a b : Z) : M unit :=
  let* i := gets (fun w => instance w) in
  if negb (attached v i) then throw TypeError
  else if view_length v <? 2 then throw RangeError
  else on_instance (fun i => view_set v 1 (Some b) (view_set v 0 (Some a) i)).

Abbreviation ImportObject := (list (string * list (string * ExportVal Function))).

(** [exports.memory || (imports.env && imports.env.memory)]: the exported
    memory if there is one, else what the [env] table of the raw imports
    provides; [None] is [undefined].  Reading [imports.env] on an [undefined]
    import object throws a [TypeError]. *)
Definition resolve_memory (exports : Exports Function) (imports : option ImportObject)
  : M (option (ExportVal Function)) :=
  match lookup_prop "memory" (entries exports) with
  | Some m => ret (Some m)
  | Datatypes.None =>
      match imports with
      | Datatypes.None => throw TypeError
      | Some imports =>
          match lookup_prop "env" imports with
          | Datatypes.None => ret Datatypes.None
          | Some env => ret (lookup_prop "memory" env)
          end
      end
  end.

(** The part of [init] that runs on the instance:
    <<
    const { exports } = instance;
    const memory = exports.memory || (imports.env && imports.env.memory);
    if(exports.__asyncify_data){
      this.data_addr = exports.__asyncify_data.value;
    }else{
      this.data_addr = DATA_ADDR;
    }
    const data_start_end = new Int32Array(memory.buffer, this.data_addr, 2);
    if(!data_start_end[0] && !data_start_end[1]){
      if(exports.__stack_low && exports.__stack_pointer){
        data_start_end[0] = exports.__stack_low.value;
        this.update_stack_area = ()=>{ data_start_end[1] = exports.__stack_pointer; };
      }else{
        data_start_end.set([DATA_START, DATA_END]);
      }
    }
    >>
    Reading [memory.buffer] throws a [TypeError] when no memory was found.
    An [__asyncify_data] export that is not a global has no [value]; the
    [undefined] stored in [data_addr] is read as 0 by the typed-array
    constructor and by the engine's [i32] parameters, and is kept as 0. *)
Definition init_descriptor (exports : Exports Function) (imports : option ImportObject)
  : M unit :=
  let* memory_ := resolve_memory exports imports in
  let* addr :=
    match lookup_prop "__asyncify_data" (entries exports) with
    | Some e => gets (fun w => default 0 (export_value (instance w) e))
    | Datatypes.None => ret DATA_ADDR
    end in
  let* _ := set_data_addr addr in
  let* addr := gets (fun w => data_addr (this w)) in
  let* data_start_end :=
    match memory_ with
    | Some m => new_Int32Array m addr 2
    | Datatypes.None => throw TypeError
    end in
  let* word0 := gets (fun w => view_get data_start_end 0 (instance w)) in
  let* word1 := gets (fun w => view_get data_start_end 1 (instance w)) in
  if is_falsy_word word0 && is_falsy_word word1 then
    match lookup_prop "__stack_low" (entries exports),
          lookup_prop "__stack_pointer" (entries exports) with
    | Some stack_low, Some stack_pointer =>
        let* _ := on_instance (fun i =>
                    view_set data_start_end 0 (export_value i stack_low) i) in
        set_update_stack_area {| hook_view := data_start_end;
                                 hook_source := export_map fun_id stack_pointer |}
    | _, _ => view_set_pair data_start_end DATA_START DATA_END
    end
  else ret tt.

(** <<
  init(instance, imports) {
    ...
    this.exports = this.wrapExports(exports);
    Object.setPrototypeOf(instance, Instance.prototype);
  }
>>
    The result is the new [this.exports]. *)
Definition init (exports : Exports Function) (imports : option ImportObject)
           (w : World) (h : Heap) : Res (Exports Callable) * Heap :=
  match init_descriptor exports imports w with
  | Ok _ w' => let (newExports, h') := wrapExports exports h in (Ok newExports w', h')
  | Throw e w' => (Throw e w', h)
  | Never => (Never, h)
  end.

End Wrappers.

Arguments exports_id {F} e.
Arguments entries {F} e.
Arguments target_props {A} t.
Arguments locked {A} t name.

(** ** Specification-side definitions *)

(** A thenable in the specification's words: a non-null object or function
    whose [then] property is itself a function. *)
Definition thenable (v : Val) : Prop :=
  v <> VNull
  /\ (typeof v = TyObject \/ typeof v = TyFunction)
  /\ typeof (get_then v) = TyFunction.

Section Described.

Context {Host Frames : Type}.
Local Abbreviation World := (World Host Frames).

(** The world after a suspension as the specification words it: the
    stack-update hook has run if one is registered, the engine has been told
    to start unwinding at [data_addr], and the asynchronous result is the
    pending value. *)
Definition suspended_with (v : Val) (w : World) : World :=
  let i1 := match update_stack_area (this w) with
            | Some h => view_set (hook_view h) 1
                                 (export_to_number (instance w) (hook_source h))
                                 (instance w)
            | Datatypes.None => instance w
            end in
  let addr := data_addr (this w) in
  {| instance := control (StartUnwind addr) State.Unwinding (to_int32 addr) i1;
     this := {| value := v;
                data_addr := addr;
                update_stack_area := update_stack_area (this w) |};
     host := host w;
     frames := frames w |}.

(** The world after the short-circuit of a replayed import call: the engine
    has been told to stop rewinding, nothing else moved. *)
Definition replayed (w : World) : World :=
  with_instance (control StopRewind State.None (asyncify_data (instance w)) (instance w)) w.

End Described.

(** *** A logical export call in the specification's words *)

Section ExportRun.

Context {Host Frames : Type}.
Local Abbreviation World := (World Host Frames).
Variable await_ : Val -> M Host Frames Val.

(** [completes w]: the condition under which a call of the original export
    that ended in world [w] ends the logical call. *)
Variable completes : World -> Prop.

Variable fn : @JsFn Host Frames.
Variable args : list Val.

(** [export_turns result w final wf]: a call of the original export has
    returned [result] in world [w]; from there the wrapper, turn by turn,
    stops unwinding, awaits the pending value (and keeps what it settled to),
    finds the state idle, starts rewinding at [data_addr] and calls the
    original export again with the same [args], until a call completes with
    [final] in world [wf]. *)
Inductive export_turns : Val -> World -> Val -> World -> Prop :=
| turns_done result w :
    completes w ->
    export_turns result w result w
| turns_again result w w1 settled w2 w3 w4 result' w5 final wf :
    asyncify_state (instance w) = State.Unwinding ->
    asyncify_stop_unwind w = Ok tt w1 ->
    await_ (value (this w1)) w1 = Ok settled w2 ->
    set_value settled w2 = Ok tt w3 ->
    asyncify_state (instance w3) = State.None ->
    asyncify_start_rewind (data_addr (this w3)) w3 = Ok tt w4 ->
    fn args w4 = Ok result' w5 ->
    export_turns result' w5 final wf ->
    export_turns result w final wf.

(** The whole logical call, from the first invocation of the original
    export. *)
Definition export_run (w : World) (final : Val) (wf : World) : Prop :=
  exists result w1, fn args w = Ok result w1 /\ export_turns result w1 final wf.

End ExportRun.

Section ExportClaims.

Context {Host Frames : Type}.
Local Abbreviation World := (World Host Frames).

(** "a call completes with state not Unwinding" *)
Definition not_unwinding (w : World) : Prop :=
  asyncify_state (instance w) <> State.Unwinding.

(** A call completes with the instance idle. *)
Definition idle (w : World) : Prop :=
  asyncify_state (instance w) = State.None.

(** A call completes in a state that is neither Unwinding nor None. *)
Definition stray (w : World) : Prop :=
  asyncify_state (instance w) <> State.Unwinding
  /\ asyncify_state (instance w) <> State.None.

(** The export wrapper as the specification states it: whenever a logical
    call started in state None ends with a call of the original export that
    completes with state not Unwinding, the asynchronous result resolves with
    that call's result. *)
Definition resolves_when_not_unwinding (await_ : Val -> M Host Frames Val)
           (fn : JsFn) (args : list Val) (w : World) : Prop :=
  forall final wf,
    asyncify_state (instance w) = State.None ->
    export_run await_ not_unwinding fn args w final wf ->
    exists fuel, newExport await_ fuel fn args w = Some (Ok final wf).

End ExportClaims.

(** *** Reserved names *)

(** The control and query operations the specification reserves. *)
Definition reserved_operations : list string :=
  ["asyncify_get_state"; "asyncify_start_unwind"; "asyncify_stop_unwind";
   "asyncify_start_rewind"; "asyncify_stop_rewind"]%string.

Definition is_reserved (name : string) : bool :=
  existsb (String.eqb name) reserved_operations.

(** *** Wrapping again *)

Section Rewrapping.

Context {Host Frames : Type}.
Variable await_ : Val -> M Host Frames Val.

(** What an instance may do to the registry between two wraps of a function. *)
Inductive WrapOp : Type :=
| WrapExportFn (fn : @Function Host Frames)
| WrapImportFn (fn : @Function Host Frames)
| WrapExports (exports : Exports (@Function Host Frames)).

Definition apply_op (h : Heap) (op : WrapOp) : Heap :=
  match op with
  | WrapExportFn fn => snd (wrapExportFn await_ fn h)
  | WrapImportFn fn => snd (wrapImportFn fn h)
  | WrapExports exports => snd (wrapExports await_ exports h)
  end.

Definition apply_ops (ops : list WrapOp) (h : Heap) : Heap := fold_left apply_op ops h.

(** "Wrapping the same import function twice yields the identical wrapper",
    for the function [fn] wrapped in heap [h] and again right after. *)
Definition rewrap_import_identical (fn : @Function Host Frames) (h : Heap) : Prop :=
  fst (wrapImportFn fn (snd (wrapImportFn fn h))) = fst (wrapImportFn fn h).

(** "Every exported function except the reserved control/query operations
    returns an asynchronous result", for the export surface made from
    [exports] in heap [h]. *)
Definition unreserved_exports_async (exports : Exports (@Function Host Frames)) (h : Heap)
  : Prop :=
  forall name fn,
    lookup_prop name (entries exports) = Some (ExFunction fn) ->
    is_reserved name = false ->
    exists w, lookup_prop name (entries (fst (wrapExports await_ exports h)))
              = Some (ExFunction (Async w)).

End Rewrapping.

(** *** The descriptor *)

Section Descriptor.

Context {Host Frames : Type}.
Local Abbreviation World := (World Host Frames).
Variable await_ : Val -> M Host Frames Val.

(** The 32-bit word at byte address [a], and the value of global [g]. *)
Definition word_at (w : World) (a : Z) : Z := default 0 (memory (instance w) !! a).
Definition global_at (w : World) (g : nat) : Z := default 0 (globals (instance w) !! g).

(** The module moves a global (its stack pointer, say). *)
Definition set_global (g : nat) (n : Z) (w : World) : World :=
  with_instance {| asyncify_state := asyncify_state (instance w);
                   asyncify_data := asyncify_data (instance w);
                   control_log := control_log (instance w);
                   memory := memory (instance w);
                   buffer := buffer (instance w);
                   buffer_bytes := buffer_bytes (instance w);
                   globals := <[g := n]> (globals (instance w)) |} w.

(** "After instantiation the descriptor's first word equals the stack mark
    and its second word equals the stack pointer." *)
Definition seeds_both_words (exports : Exports (@Function Host Frames))
           (imports : option (list (string * list (string * ExportVal (@Function Host Frames)))))
           (w : World) (h : @Heap Host Frames) (stack_low stack_pointer : Z) : Prop :=
  exists newExports w1,
    fst (init await_ exports imports w h) = Ok newExports w1
    /\ word_at w1 (data_addr (this w1)) = stack_low
    /\ word_at w1 (data_addr (this w1) + 4) = stack_pointer.

End Descriptor.

(** ** An instrumented module

    The module and the pass that instruments it are outside the repository.
    To follow a logical call end to end, an export is taken to be a straight
    line of import calls: each call site computes its arguments from the
    values received so far, and the export's result is computed from all of
    them.  Instrumented, the export saves the index of the call site and the
    values received so far when a call comes back with the state Unwinding,
    and, entered in state Rewinding, resumes at the saved call site with the
    saved values. *)

Record Frame : Type := { saved_pc : nat; saved_locals : list Val }.

Section InstrumentedModule.

Context {Host : Type}.
Local Abbreviation World := (World Host Frame).
Local Abbreviation M := (M Host Frame).
Local Abbreviation JsFn := (@JsFn Host Frame).

(** A call site: the host function behind the import (a function of the
    host's state) and how the arguments are computed. *)
Record CallSite : Type := {
  host_fn : list Val -> Host -> Val * Host;
  arguments_of : list Val -> list Val
}.

Definition host_call (s : CallSite) : JsFn := fun args w =>
  let (v, h) := host_fn s args (host w) in Ok v (with_host h w).

Definition save_frame (pc : nat) (locals : list Val) : M unit :=
  modify (with_frames {| saved_pc := pc; saved_locals := locals |}).

(** Run the call sites [sites], the first of which has index [pc]. *)
Fixpoint run_from (result_of : list Val -> Val) (sites : list CallSite)
         (pc : nat) (locals : list Val) : M Val :=
  match sites with
  | [] => ret (result_of locals)
  | site :: rest =>
      let* received := wrapImportFn_closure (host_call site) (arguments_of site locals) in
      let* state := asyncify_get_state in
      if state =? State.Unwinding then
        let* _ := save_frame pc locals in
        ret (VNum 0)
      else run_from result_of rest (S pc) (locals ++ [received])
  end.

(** The instrumented export. *)
Definition instrumented (result_of : list Val -> Val) (sites : list CallSite) : JsFn :=
  fun args =>
  let* state := asyncify_get_state in
  if state =? State.Rewinding then
    let* frame := gets (fun w => frames w) in
    run_from result_of (drop (saved_pc frame) sites) (saved_pc frame) (saved_locals frame)
  else run_from result_of sites 0 args.

(** A scheduler under which the awaited value [v] is fulfilled with
    [settle v] and nothing else runs meanwhile. *)
Definition settles (settle : Val -> Val) : Val -> M Val := fun v w => Ok (settle v) w.

(** The same export run against a host that blocks: every host function is
    called once, in order, and an asynchronous result is replaced by what it
    settles to.  Returns the export's result, the host's final state and the
    number of asynchronous results met. *)
Fixpoint blocking (settle : Val -> Val) (result_of : list Val -> Val)
         (sites : list CallSite) (locals : list Val) (h : Host) : Val * Host * nat :=
  match sites with
  | [] => (result_of locals, h, 0%nat)
  | site :: rest =>
      let (v, h') := host_fn site (arguments_of site locals) h in
      if isPromise v then
        let '(r, hf, n) := blocking settle result_of rest (locals ++ [settle v]) h' in
        (r, hf, S n)
      else blocking settle result_of rest (locals ++ [v]) h'
  end.

(** One unwind/rewind cycle as the engine sees it. *)
Definition cycle (addr : Z) : list EngineOp :=
  [StartUnwind addr; StopUnwind; StartRewind addr; StopRewind].

End InstrumentedModule.

(** Tallying the calls of a call site's host function. *)
Definition tallied {Host : Type} (s : @CallSite Host) : @CallSite (nat * Host) :=
  {| host_fn := fun a th =>
                  let (v, h') := host_fn s a (snd th) in (v, (S (fst th), h'));
     arguments_of := arguments_of s |}.


(** ** Concrete worlds *)

Definition empty_instance : ModuleInstance :=
  {| asyncify_state := State.None;
     asyncify_data := 0;
     control_log := [];
     memory := ∅;
     buffer := 0;
     buffer_bytes := 65536;
     globals := ∅ |}.

Definition in_state (st : Z) : ModuleInstance :=
  {| asyncify_state := st;
     asyncify_data := DATA_ADDR;
     control_log := [];
     memory := ∅;
     buffer := 0;
     buffer_bytes := 65536;
     globals := ∅ |}.

(** A world whose host state is a call counter and whose module keeps no
    frames. *)
Definition counting_world (st : Z) (pending : Val) : World nat unit :=
  {| instance := in_state st;
     this := {| value := pending; data_addr := DATA_ADDR;
                update_stack_area := Datatypes.None |};
     host := 0%nat;
     frames := tt |}.

(** A promise-like object: an object whose [then] is a function. *)
Definition a_promise (id : nat) : Val := VObject id false (VObject 0 true VUndefined).

(** A host function that counts its calls and returns [v]. *)
Definition counted (v : Val) : list Val -> M nat unit Val := fun _ w =>
  Ok v (with_host (S (host w)) w).

(** A scheduler for the examples: whatever is awaited is fulfilled with 7. *)
Definition fulfils_with_7 {Frames} : Val -> M nat Frames Val := fun _ w => Ok (VNum 7) w.

(** An export that suspends on an import when called in state None, and
    whose replay returns 5 without reaching the suspended import call, so
    that nothing stops the rewind. *)
Definition stalled_export : list Val -> M nat unit Val := fun _ w =>
  if asyncify_state (instance w) =? State.None
  then Ok (VNum 0) (suspended_with (a_promise 1) w)
  else Ok (VNum 5) w.

(** An export that suspends once and whose replay consumes the settled value
    through the import wrapper. *)
Definition suspending_export : list Val -> M nat unit Val := fun _ w =>
  if asyncify_state (instance w) =? State.None
  then Ok (VNum 0) (suspended_with (a_promise 1) w)
  else wrapImportFn_closure (counted (a_promise 1)) [] w.

(** The world of the examples after [n] complete unwind/rewind cycles in
    which the last awaited value settled to [settled] and the host counted
    [calls] calls. *)
Definition after_cycles (n : nat) (settled : Val) (calls : nat) : World nat unit :=
  {| instance := {| asyncify_state := State.None;
                    asyncify_data := DATA_ADDR;
                    control_log := concat (replicate n (cycle DATA_ADDR));
                    memory := ∅;
                    buffer := 0;
                    buffer_bytes := 65536;
                    globals := ∅ |};
     this := {| value := settled; data_addr := DATA_ADDR;
                update_stack_area := Datatypes.None |};
     host := calls;
     frames := tt |}.

(** Where [stalled_export] leaves the world: the rewind has been started and
    never stopped. *)
Definition stalled_world : World nat unit :=
  {| instance := {| asyncify_state := State.Rewinding;
                    asyncify_data := DATA_ADDR;
                    control_log := [StartUnwind DATA_ADDR; StopUnwind; StartRewind DATA_ADDR];
                    memory := ∅;
                    buffer := 0;
                    buffer_bytes := 65536;
                    globals := ∅ |};
     this := {| value := VNum 7; data_addr := DATA_ADDR;
                update_stack_area := Datatypes.None |};
     host := 0%nat;
     frames := tt |}.

(** A heap with an empty registry. *)
Definition empty_heap : @Heap nat unit :=
  {| next_id := 10; WRAPPED_EXPORTS := ∅; WRAPPED_EXPORTS_objects := ∅ |}.

(** A host function object, and the raw exports of a module that exports an
    entry point, the state query and a helper of its own whose name starts
    with [asyncify_]. *)
Definition host_function : @Function nat unit :=
  {| fun_id := 1; fun_call := counted (VNum 42) |}.

Definition raw_main : @Function nat unit :=
  {| fun_id := 2; fun_call := suspending_export |}.

Definition raw_get_state : @Function nat unit :=
  {| fun_id := 3; fun_call := fun _ w => Ok (VNum (asyncify_state (instance w))) w |}.

Definition raw_helper : @Function nat unit :=
  {| fun_id := 4; fun_call := fun _ w => Ok (VNum 1) w |}.

Definition raw_exports : Exports (@Function nat unit) :=
  {| exports_id := 5;
     entries := [("main", ExFunction raw_main);
                 ("asyncify_get_state", ExFunction raw_get_state);
                 ("asyncify_extra", ExFunction raw_helper);
                 ("memory", ExMemory)]%string |}.

(** The raw exports of a module that exports its memory, its stack mark
    (global 0) and its stack pointer (global 1), and a world in which the
    memory is all zero, the stack mark is 100 and the stack pointer is [sp]. *)
Definition stack_exports : Exports (@Function nat unit) :=
  {| exports_id := 5;
     entries := [("memory", ExMemory);
                 ("__stack_low", ExGlobal 0);
                 ("__stack_pointer", ExGlobal 1);
                 ("main", ExFunction raw_main);
                 ("asyncify_get_state", ExFunction raw_get_state)]%string |}.

Definition stack_world (sp : Z) : World nat unit :=
  {| instance := {| asyncify_state := State.None;
                    asyncify_data := 0;
                    control_log := [];
                    memory := ∅;
                    buffer := 0;
                    buffer_bytes := 65536;
                    globals := {[ 0%nat := 100; 1%nat := sp ]} |};
     this := {| value := VUndefined; data_addr := 0;
                update_stack_area := Datatypes.None |};
     host := 0%nat;
     frames := tt |}.

(** Scenario C of the specification: an import whose host function returns
    a promise, called twice in sequence by the export, which returns the last
    value it received. *)
Definition delayed_import : @CallSite nat :=
  {| host_fn := fun _ h => (a_promise 1, h); arguments_of := fun _ => [] |}.

Definition last_received (locals : list Val) : Val := List.last locals VUndefined.

Definition scenario_world : World (nat * nat) Frame :=
  {| instance := empty_instance;
     this := {| value := VUndefined; data_addr := DATA_ADDR;
                update_stack_area := Datatypes.None |};
     host := (0%nat, 0%nat);
     frames := {| saved_pc := 0; saved_locals := [] |} |}.

(** ** Further definitions *)

Section Surface.

Context {Host Frames : Type}.
Local Abbreviation World := (World Host Frames).

(** <<
export class Instance extends WebAssembly.Instance {
  get exports() {
    return WRAPPED_EXPORTS.get(super.exports);
  }
}
>>
    [super.exports] is the raw exports object of the instance; [None] is
    [undefined]. *)
Definition Instance_exports (super_exports : Exports (@Function Host Frames))
           (h : @Heap Host Frames) : option (Exports (@Callable Host Frames)) :=
  WRAPPED_EXPORTS_objects h !! exports_id super_exports.

(** The world right after [this.exports.asyncify_stop_unwind()]. *)
Definition unwound (w : World) : World :=
  with_instance (control StopUnwind State.None (asyncify_data (instance w)) (instance w)) w.

(** The world after [this.value = v]. *)
Definition with_value (v : Val) (w : World) : World :=
  with_this {| value := v;
               data_addr := data_addr (this w);
               update_stack_area := update_stack_area (this w) |} w.

(** The address [init] resolves for the descriptor: the value of the
    [__asyncify_data] export when there is one, [DATA_ADDR] otherwise. *)
Definition resolved_addr (exports : Exports (@Function Host Frames)) (w : World) : Z :=
  match lookup_prop "__asyncify_data" (entries exports) with
  | Some e => default 0 (export_value (instance w) e)
  | Datatypes.None => DATA_ADDR
  end.

End Surface.

(** More concrete inputs. *)

(** A host function that counts its call and throws. *)
Definition failing (reason : Val) : list Val -> M nat unit Val := fun _ w =>
  Throw (Thrown reason) (with_host (S (host w)) w).

(** A scheduler under which whatever is awaited is rejected. *)
Definition rejects_with (reason : Val) : Val -> M nat unit Val := fun _ w =>
  Throw (Thrown reason) w.

(** A scheduler under which other work leaves the instance rewinding before
    the awaited value is fulfilled with 7. *)
Definition meddles : Val -> M nat unit Val := fun _ w =>
  Ok (VNum 7)
     (with_instance (control (StartRewind DATA_ADDR) State.Rewinding DATA_ADDR (instance w)) w).

(** An export that returns 3 and never suspends. *)
Definition plain_export : list Val -> M nat unit Val := fun _ w => Ok (VNum 3) w.

(** The raw exports of a module that exports its memory and an entry point
    under two names, but no stack symbols; and worlds over a zeroed memory
    and over a memory whose descriptor at 16 is already set. *)
Definition bare_exports : Exports (@Function nat unit) :=
  {| exports_id := 6;
     entries := [("memory", ExMemory);
                 ("main", ExFunction raw_main);
                 ("_start", ExFunction raw_main);
                 ("table", ExTable);
                 ("asyncify_get_state", ExFunction raw_get_state)]%string |}.

Definition seeded_world : World nat unit :=
  {| instance := {| asyncify_state := State.None;
                    asyncify_data := 0;
                    control_log := [];
                    memory := {[ 16 := 4096; 20 := 8192 ]};
                    buffer := 0;
                    buffer_bytes := 65536;
                    globals := ∅ |};
     this := {| value := VUndefined; data_addr := 0;
                update_stack_area := Datatypes.None |};
     host := 0%nat;
     frames := tt |}.

(** The raw exports of a module without memory, and of one that places the
    descriptor at the misaligned address 18 (global 0). *)
Definition memoryless_exports : Exports (@Function nat unit) :=
  {| exports_id := 7; entries := [("main", ExFunction raw_main)]%string |}.

Definition misplaced_exports : Exports (@Function nat unit) :=
  {| exports_id := 8;
     entries := [("memory", ExMemory); ("__asyncify_data", ExGlobal 0)]%string |}.

Definition misplaced_world : World nat unit :=
  {| instance := {| asyncify_state := State.None;
                    asyncify_data := 0;
                    control_log := [];
                    memory := ∅;
                    buffer := 0;
                    buffer_bytes := 65536;
                    globals := {[ 0%nat := 18 ]} |};
     this := {| value := VUndefined; data_addr := 0;
                update_stack_area := Datatypes.None |};
     host := 0%nat;
     frames := tt |}.

(** An import object with one module table. *)
Definition some_imports : list (string * list (string * ExportVal (@Function nat unit))) :=
  [("env", [("sleep", ExFunction host_function); ("memory", ExMemory)])]%string.

Section Frame.

Context {Host Frames : Type}.

(** [descriptor_only w w1]: from [w] to [w1] nothing has moved but the
    controller's [data_addr] and hook and the two words of the descriptor at
    the [data_addr] of [w1]. *)
Definition descriptor_only (w w1 : World Host Frames) : Prop :=
  asyncify_state (instance w1) = asyncify_state (instance w)
  /\ asyncify_data (instance w1) = asyncify_data (instance w)
  /\ control_log (instance w1) = control_log (instance w)
  /\ globals (instance w1) = globals (instance w)
  /\ buffer_bytes (instance w1) = buffer_bytes (instance w)
  /\ value (this w1) = value (this w)
  /\ host w1 = host w
  /\ frames w1 = frames w
  /\ forall a, a <> data_addr (this w1) -> a <> data_addr (this w1) + 4 ->
       memory (instance w1) !! a = memory (instance w) !! a.

End Frame.

(** *** A grown memory, a frozen table *)

(** The view [init] makes of the descriptor: two words at [addr] of the
    buffer the memory has at that moment. *)
Definition descriptor_view (i : ModuleInstance) (addr : Z) : Int32Array :=
  {| view_buffer := Some (buffer i); byteOffset := addr; view_length := 2 |}.


(** An ordinary object literal, and [Object.freeze] of one: every own
    property locked. *)
Definition literal {A : Type} (props : list (string * A)) : Target A :=
  {| target_props := props; locked := fun _ => false |}.

Definition frozen {A : Type} (props : list (string * A)) : Target A :=
  {| target_props := props;
     locked := fun name => existsb (String.eqb name) (map fst props) |}.

(** An import object whose [env] table is frozen and binds a host function
    and a global. *)
Definition frozen_imports : Target (Target (ExportVal (@Function nat unit))) :=
  literal [("env", frozen [("now", ExFunction host_function);
                           ("base", ExGlobal 3)])]%string.

(** *** The state machine of the control operations *)

(** The state a control operation requires and the state it leaves:
    None → Unwinding → None → Rewinding → None. *)
Definition allowed (state : Z) (op : EngineOp) : Prop :=
  match op with
  | StartUnwind _ | StartRewind _ => state = State.None
  | StopUnwind => state = State.Unwinding
  | StopRewind => state = State.Rewinding
  end.

Definition state_after (op : EngineOp) : Z :=
  match op with
  | StartUnwind _ => State.Unwinding
  | StartRewind _ => State.Rewinding
  | StopUnwind | StopRewind => State.None
  end.

(** [legal log state]: starting idle, every operation of [log] was issued in
    the state it requires, and [state] is where the last one left the
    engine. *)
Inductive legal : list EngineOp -> Z -> Prop :=
| legal_idle : legal [] State.None
| legal_step log state op :
    legal log state -> allowed state op -> legal (log ++ [op]) (state_after op).

Section Lawful.

Context {Host Frames : Type}.

Definition lawful (w : World Host Frames) : Prop :=
  legal (control_log (instance w)) (asyncify_state (instance w)).

(** A computation that, run in a lawful world, ends in a lawful world. *)
Definition keeps_lawful {A : Type} (m : M Host Frames A) : Prop :=
  forall w, lawful w ->
            match m w with
            | Ok _ w' | Throw _ w' => lawful w'
            | Never => True
            end.

End Lawful.

(** * Properties *)

(** ** The import wrapper *)

Section ImportWrapper.

Context {Host Frames : Type}.
Local Abbreviation World := (World Host Frames).
Local Abbreviation JsFn := (@JsFn Host Frames).

Lemma isPromise_thenable (v : Val) : isPromise v = true <-> thenable v.
Proof.
  unfold isPromise, thenable. split.
  - intros H. apply andb_prop in H as [H Hthen]. apply andb_prop in H as [Htruthy Hty].
    repeat split.
    + intros ->. discriminate.
    + destruct v as [| | | | | | |id [] t]; simpl in *; auto; discriminate.
    + destruct (typeof (get_then v)); simpl in Hthen; try discriminate; reflexivity.
  - intros (Hnull & Hty & Hthen). rewrite Hthen. simpl.
    destruct v as [| | | | | | |id [] t]; simpl in *; try reflexivity;
      try congruence; destruct Hty; discriminate.
Qed.

Lemma wrapImportFn_closure_idle (fn : JsFn) (args : list Val) (w : World) :
  asyncify_state (instance w) = State.None ->
  wrapImportFn_closure fn args w =
  match fn args w with
  | Ok v w1 => if isPromise v then Ok VUndefined (suspended_with v w1) else Ok v w1
  | Throw e w1 => Throw e w1
  | Never => Never
  end.
Proof.
  intros Hst.
  cbv [wrapImportFn_closure bind getState assertNoneState asyncify_get_state gets
       throw ret State.None State.Rewinding].
  rewrite Hst. cbn. rewrite Hst. cbn.
  destruct (fn args w) as [v w1| |]; try reflexivity.
  destruct (isPromise v); cbn; try reflexivity.
  unfold suspended_with.
  destruct (update_stack_area (this w1)) as [h|] eqn:Hhook; cbn; rewrite ?Hhook; reflexivity.
Qed.

(** C3. A wrapped import whose underlying function returns a non-asynchronous
    value in state None returns that value unchanged and adds nothing to what
    the underlying function did; when the function itself left the engine and
    the controller alone, the state is None before and after, no control
    operation was issued and the pending value is the one from before. *)
Theorem sync_import_passes_through (fn : JsFn) (args : list Val) (w w1 : World) (v : Val) :
  asyncify_state (instance w) = State.None ->
  fn args w = Ok v w1 ->
  isPromise v = false ->
  wrapImportFn_closure fn args w = Ok v w1
  /\ (instance w1 = instance w -> this w1 = this w ->
      asyncify_state (instance w1) = State.None
      /\ control_log (instance w1) = control_log (instance w)
      /\ value (this w1) = value (this w)).
Proof.
  intros Hst Hfn Hv. split.
  - rewrite wrapImportFn_closure_idle by assumption. rewrite Hfn, Hv. reflexivity.
  - intros Hi Ht. rewrite Hi, Ht. auto.
Qed.

Lemma view_set_control (v : Int32Array) (k : Z) (n : option Z) (i : ModuleInstance) :
  asyncify_state (view_set v k n i) = asyncify_state i
  /\ asyncify_data (view_set v k n i) = asyncify_data i
  /\ control_log (view_set v k n i) = control_log i
  /\ globals (view_set v k n i) = globals i.
Proof. unfold view_set. destruct (attached v i && in_view v k); auto. Qed.

Lemma view_set_attached (v : Int32Array) (k : Z) (n : option Z) (i : ModuleInstance) :
  view_buffer v = Some (buffer i) -> in_view v k = true ->
  view_set v k n i
  = with_memory (<[byteOffset v + 4 * k := to_int32 (default 0 n)]> (memory i)) i.
Proof.
  intros Hb Hk. unfold view_set, attached. rewrite Hb, Nat.eqb_refl, Hk. reflexivity.
Qed.


Lemma view_set_pair_attached (v : Int32Array) (a b : Z) (w : World) :
  view_buffer v = Some (buffer (instance w)) -> view_length v = 2 ->
  view_set_pair v a b w
  = Ok tt (with_instance
             (with_memory (<[byteOffset v + 4 := to_int32 b]>
                             (<[byteOffset v := to_int32 a]> (memory (instance w))))
                          (instance w)) w).
Proof.
  intros Hb Hlen. unfold view_set_pair, bind, gets, attached.
  rewrite Hb, Nat.eqb_refl, Hlen. cbn [negb Z.ltb Z.compare Pos.compare Pos.compare_cont].
  unfold on_instance, modify.
  rewrite (view_set_attached v 0) by (try assumption; unfold in_view; rewrite Hlen; reflexivity).
  rewrite view_set_attached by (try assumption; unfold in_view; rewrite Hlen; reflexivity).
  cbn [with_memory memory].
  replace (byteOffset v + 4 * 0) with (byteOffset v) by lia.
  replace (byteOffset v + 4 * 1) with (byteOffset v + 4) by lia.
  reflexivity.
Qed.

Lemma suspended_with_facts (v : Val) (w : World) :
  asyncify_state (instance (suspended_with v w)) = State.Unwinding
  /\ control_log (instance (suspended_with v w))
     = control_log (instance w) ++ [StartUnwind (data_addr (this w))]
  /\ asyncify_data (instance (suspended_with v w)) = to_int32 (data_addr (this w))
  /\ value (this (suspended_with v w)) = v
  /\ data_addr (this (suspended_with v w)) = data_addr (this w)
  /\ update_stack_area (this (suspended_with v w)) = update_stack_area (this w)
  /\ host (suspended_with v w) = host w
  /\ frames (suspended_with v w) = frames w.
Proof.
  unfold suspended_with. cbn.
  destruct (update_stack_area (this w)) as [h|]; repeat split.
  f_equal. apply view_set_control.
Qed.

(** C4. A wrapped import called in state None whose underlying function
    returns an asynchronous value runs the stack-update hook if one is
    registered, tells the engine to start unwinding at [data_addr], stores the
    asynchronous result as the pending value and returns [undefined]. *)
Theorem async_import_starts_unwinding
        (fn : JsFn) (args : list Val) (w w1 : World) (v : Val) :
  asyncify_state (instance w) = State.None ->
  fn args w = Ok v w1 ->
  isPromise v = true ->
  wrapImportFn_closure fn args w = Ok VUndefined (suspended_with v w1)
  /\ memory (instance (suspended_with v w1))
     = match update_stack_area (this w1) with
       | Some h => memory (view_set (hook_view h) 1
                                    (export_to_number (instance w1) (hook_source h))
                                    (instance w1))
       | Datatypes.None => memory (instance w1)
       end
  /\ asyncify_state (instance (suspended_with v w1)) = State.Unwinding
  /\ control_log (instance (suspended_with v w1))
     = control_log (instance w1) ++ [StartUnwind (data_addr (this w1))]
  /\ value (this (suspended_with v w1)) = v.
Proof.
  intros Hst Hfn Hv. split.
  - rewrite wrapImportFn_closure_idle by assumption. rewrite Hfn, Hv. reflexivity.
  - split.
    + unfold suspended_with. cbn. destruct (update_stack_area (this w1)); reflexivity.
    + pose proof (suspended_with_facts v w1) as (H1 & H2 & _ & H4 & _). auto.
Qed.

(** C5. A wrapped import invoked while the state is Unwinding throws the
    invalid-state error at once; the outcome is the same whatever the
    underlying function is, and the world, state and pending value included,
    is the one the call was made in. *)
Theorem import_while_unwinding_throws (fn : JsFn) (args : list Val) (w : World) :
  asyncify_state (instance w) = State.Unwinding ->
  wrapImportFn_closure fn args w = Throw (InvalidAsyncState State.Unwinding) w.
Proof.
  intros Hst.
  cbv [wrapImportFn_closure bind getState assertNoneState asyncify_get_state gets
       throw ret State.None State.Rewinding State.Unwinding] in *.
  rewrite Hst. cbn. rewrite Hst. reflexivity.
Qed.

Lemma wrapImportFn_closure_rewinding (fn : JsFn) (args : list Val) (w : World) :
  asyncify_state (instance w) = State.Rewinding ->
  wrapImportFn_closure fn args w = Ok (value (this w)) (replayed w).
Proof.
  intros Hst.
  cbv [wrapImportFn_closure bind getState asyncify_get_state gets State.Rewinding] in *.
  rewrite Hst. reflexivity.
Qed.

(** C10. The import wrapper's test for an asynchronous result is exactly
    thenability: a non-null object or function whose [then] is a function.
    In state None a thenable result takes the unwind path, and every other
    result (null, a number, an object whose [then] is not callable among them)
    is returned unchanged. *)
Theorem asynchronous_iff_thenable (fn : JsFn) (args : list Val) (w w1 : World) (v : Val) :
  asyncify_state (instance w) = State.None ->
  fn args w = Ok v w1 ->
  (isPromise v = true <-> thenable v)
  /\ (thenable v -> wrapImportFn_closure fn args w = Ok VUndefined (suspended_with v w1))
  /\ (~ thenable v -> wrapImportFn_closure fn args w = Ok v w1)
  /\ isPromise VNull = false
  /\ (forall n, isPromise (VNum n) = false)
  /\ (forall id callable then_,
        typeof then_ <> TyFunction -> isPromise (VObject id callable then_) = false).
Proof.
  intros Hst Hfn. split; [apply isPromise_thenable|].
  rewrite wrapImportFn_closure_idle by assumption. rewrite Hfn.
  split; [|split; [|split; [|split]]].
  - intros Hth. apply isPromise_thenable in Hth. rewrite Hth. reflexivity.
  - intros Hth. destruct (isPromise v) eqn:E; [|reflexivity].
    apply isPromise_thenable in E. contradiction.
  - reflexivity.
  - intros n. unfold isPromise. cbn. rewrite andb_false_r. reflexivity.
  - intros id callable then_ Hty. unfold isPromise. cbn [get_then].
    destruct (typeof then_); try congruence; cbn; apply andb_false_r.
Qed.

End ImportWrapper.

(** Witness for C3: a counting host function returning 42. *)
Lemma sync_import_passes_through_witness :
  wrapImportFn_closure (counted (VNum 42)) [] (counting_world State.None VUndefined)
  = Ok (VNum 42) (with_host 1%nat (counting_world State.None VUndefined))
  /\ asyncify_state (instance (with_host 1%nat (counting_world State.None VUndefined)))
     = State.None
  /\ control_log (instance (with_host 1%nat (counting_world State.None VUndefined))) = []
  /\ value (this (with_host 1%nat (counting_world State.None VUndefined))) = VUndefined.
Proof.
  destruct (sync_import_passes_through (counted (VNum 42)) []
              (counting_world State.None VUndefined)
              (with_host 1%nat (counting_world State.None VUndefined)) (VNum 42)
              eq_refl eq_refl eq_refl) as [Hcall Hframe].
  split; [exact Hcall|]. exact (Hframe eq_refl eq_refl).
Defined.

(** Witness for C4: a counting host function returning a promise. *)
Lemma async_import_starts_unwinding_witness :
  wrapImportFn_closure (counted (a_promise 7)) [] (counting_world State.None VUndefined)
  = Ok VUndefined
       (suspended_with (a_promise 7) (with_host 1%nat (counting_world State.None VUndefined))).
Proof.
  apply (async_import_starts_unwinding (counted (a_promise 7)) []
           (counting_world State.None VUndefined)); reflexivity.
Defined.

(** Witness for C5: the counter of the host function does not move. *)
Lemma import_while_unwinding_throws_witness :
  wrapImportFn_closure (counted (VNum 42)) [] (counting_world State.Unwinding VUndefined)
  = Throw (InvalidAsyncState State.Unwinding) (counting_world State.Unwinding VUndefined).
Proof.
  apply (import_while_unwinding_throws (counted (VNum 42)) []
           (counting_world State.Unwinding VUndefined)); reflexivity.
Defined.

(** Witness for C10: an object with a callable [then] that is no promise. *)
Lemma asynchronous_iff_thenable_witness :
  thenable (a_promise 7)
  /\ wrapImportFn_closure (counted (a_promise 7)) [] (counting_world State.None VUndefined)
     = Ok VUndefined
          (suspended_with (a_promise 7) (with_host 1%nat (counting_world State.None VUndefined))).
Proof.
  assert (Hth : thenable (a_promise 7)).
  { repeat split; [discriminate | left; reflexivity]. }
  split; [exact Hth|].
  exact (proj1 (proj2 (asynchronous_iff_thenable (counted (a_promise 7)) []
                         (counting_world State.None VUndefined) _ _ eq_refl eq_refl)) Hth).
Defined.

(** ** The export wrapper *)

Section ExportWrapper.

Context {Host Frames : Type}.
Local Abbreviation World := (World Host Frames).
Local Abbreviation JsFn := (@JsFn Host Frames).
Variable await_ : Val -> M Host Frames Val.

Lemma export_loop_S (fuel : nat) (fn : JsFn) (args : list Val) (result : Val) (w : World) :
  export_loop await_ (S fuel) fn args result w
  = if asyncify_state (instance w) =? State.Unwinding then
      match loop_body await_ fn args w with
      | Ok result' w' => export_loop await_ fuel fn args result' w'
      | Throw e w' => Some (Throw e w')
      | Never => Some Never
      end
    else Some ((let* _ := assertNoneState in ret result) w).
Proof. reflexivity. Qed.

Lemma assertNoneState_idle (w : World) :
  asyncify_state (instance w) = State.None -> assertNoneState w = Ok tt w.
Proof.
  intros Hst. cbv [assertNoneState bind getState asyncify_get_state gets ret throw State.None] in *.
  rewrite Hst. reflexivity.
Qed.

Lemma assertNoneState_busy (w : World) :
  asyncify_state (instance w) <> State.None ->
  assertNoneState w = Throw (InvalidAsyncState (asyncify_state (instance w))) w.
Proof.
  intros Hst. cbv [assertNoneState bind getState asyncify_get_state gets ret throw State.None] in *.
  destruct (asyncify_state (instance w) =? 0) eqn:E; [|reflexivity].
  apply Z.eqb_eq in E. contradiction.
Qed.

(** C6. A call of a wrapped export made while the state is not None is
    rejected with the invalid-state error; the original export has no part in
    the outcome and the world is untouched.  So it is for the closure
    [newExport] and for the wrapper [wrapExportFn] makes of a function. *)
Theorem export_while_busy_rejects (fuel : nat) (fn : JsFn) (args : list Val) (w : World) :
  asyncify_state (instance w) <> State.None ->
  newExport await_ fuel fn args w
  = Some (Throw (InvalidAsyncState (asyncify_state (instance w))) w)
  /\ forall (f : Function) (h : Heap),
       WRAPPED_EXPORTS h !! fun_id f = Datatypes.None ->
       async_call (fst (wrapExportFn await_ f h)) fuel args w
       = Some (Throw (InvalidAsyncState (asyncify_state (instance w))) w).
Proof.
  intros Hst.
  assert (Hany : forall g : JsFn,
             newExport await_ fuel g args w
             = Some (Throw (InvalidAsyncState (asyncify_state (instance w))) w)).
  { intros g. unfold newExport, bind.
    rewrite assertNoneState_busy by assumption. reflexivity. }
  split; [apply Hany|].
  intros f h Hnew. unfold wrapExportFn. rewrite Hnew. cbn. apply Hany.
Qed.

Lemma loop_body_turn (fn : JsFn) (args : list Val)
      (w w1 w2 w3 w4 w5 : World) (settled result' : Val) :
  asyncify_stop_unwind w = Ok tt w1 ->
  await_ (value (this w1)) w1 = Ok settled w2 ->
  set_value settled w2 = Ok tt w3 ->
  asyncify_state (instance w3) = State.None ->
  asyncify_start_rewind (data_addr (this w3)) w3 = Ok tt w4 ->
  fn args w4 = Ok result' w5 ->
  loop_body await_ fn args w = Ok result' w5.
Proof.
  intros H1 H2 H3 H4 H5 H6. unfold loop_body.
  unfold bind at 1. rewrite H1.
  unfold bind at 1. unfold gets at 1.
  unfold bind at 1. rewrite H2.
  unfold bind at 1. rewrite H3.
  unfold bind at 1. rewrite (assertNoneState_idle w3 H4).
  unfold bind at 1. unfold gets at 1.
  unfold bind at 1. rewrite H5. exact H6.
Qed.

Lemma export_turns_loop (completes : World -> Prop) (fn : JsFn) (args : list Val)
      (result final : Val) (w wf : World) :
  (forall w', completes w' -> asyncify_state (instance w') <> State.Unwinding) ->
  export_turns await_ completes fn args result w final wf ->
  exists fuel, forall fuel', (fuel <= fuel')%nat ->
    export_loop await_ fuel' fn args result w
    = Some (match assertNoneState wf with
            | Ok _ w' => Ok final w'
            | Throw e w' => Throw e w'
            | Never => Never
            end).
Proof.
  intros Hc Hrun. induction Hrun as [result w Hdone | result w w1 settled w2 w3 w4 result' w5 final wf
                                      Hst H1 H2 H3 H4 H5 H6 Hrun IH].
  - exists 1%nat. intros [|fuel'] Hle; [lia|]. rewrite export_loop_S.
    destruct (asyncify_state (instance w) =? State.Unwinding) eqn:E.
    + apply Z.eqb_eq in E. exfalso. exact (Hc w Hdone E).
    + reflexivity.
  - destruct IH as [fuel IH]. exists (S fuel). intros [|fuel'] Hle; [lia|].
    rewrite export_loop_S, Hst. cbn [Z.eqb State.Unwinding Pos.eqb].
    rewrite (loop_body_turn fn args w w1 w2 w3 w4 w5 settled result' H1 H2 H3 H4 H5 H6).
    apply IH. lia.
Qed.

Lemma assertNoneState_inv (w w' : World) (u : unit) :
  assertNoneState w = Ok u w' -> asyncify_state (instance w) = State.None /\ w' = w.
Proof.
  cbv [assertNoneState bind getState asyncify_get_state gets ret throw State.None].
  destruct (asyncify_state (instance w) =? 0) eqn:E; cbn; intros H; [|discriminate].
  apply Z.eqb_eq in E. injection H as _ <-. auto.
Qed.

Lemma loop_body_inv (fn : JsFn) (args : list Val) (w w5 : World) (result' : Val) :
  loop_body await_ fn args w = Ok result' w5 ->
  exists w1 settled w2 w3 w4,
    asyncify_stop_unwind w = Ok tt w1
    /\ await_ (value (this w1)) w1 = Ok settled w2
    /\ set_value settled w2 = Ok tt w3
    /\ asyncify_state (instance w3) = State.None
    /\ asyncify_start_rewind (data_addr (this w3)) w3 = Ok tt w4
    /\ fn args w4 = Ok result' w5.
Proof.
  intros H. unfold loop_body in H.
  unfold bind at 1 in H. cbn [asyncify_stop_unwind on_instance modify] in H.
  unfold bind at 1 in H. cbn [gets] in H.
  unfold bind at 1 in H.
  destruct (await_ _ _) as [settled w2| |] eqn:Hawait in H; try discriminate.
  unfold bind at 1 in H. cbn [set_value modify] in H.
  unfold bind at 1 in H.
  destruct (assertNoneState _) as [u w3| |] eqn:Hassert in H; try discriminate.
  apply assertNoneState_inv in Hassert as [Hidle ->].
  unfold bind at 1 in H. cbn [gets] in H.
  unfold bind at 1 in H. cbn [asyncify_start_rewind on_instance modify] in H.
  eexists _, settled, w2, _, _.
  split; [reflexivity|]. split; [exact Hawait|]. split; [reflexivity|].
  split; [exact Hidle|]. split; [reflexivity|]. exact H.
Qed.

Lemma export_loop_resolves_inv (fn : JsFn) (args : list Val) (fuel : nat) :
  forall (result final : Val) (w wf : World),
    export_loop await_ fuel fn args result w = Some (Ok final wf) ->
    export_turns await_ idle fn args result w final wf.
Proof.
  induction fuel as [|fuel IH]; intros result final w wf H.
  - discriminate.
  - rewrite export_loop_S in H. destruct (asyncify_state (instance w) =? State.Unwinding) eqn:E.
    + apply Z.eqb_eq in E.
      destruct (loop_body await_ fn args w) as [result' w5| |] eqn:Hbody; try discriminate.
      apply loop_body_inv in Hbody
        as (w1 & settled & w2 & w3 & w4 & H1 & H2 & H3 & H4 & H5 & H6).
      eapply turns_again; eauto.
    + unfold bind in H.
      destruct (assertNoneState w) as [u w'| |] eqn:Hassert; try discriminate.
      apply assertNoneState_inv in Hassert as [Hidle ->].
      cbn [ret] in H. injection H as <- <-. apply turns_done. exact Hidle.
Qed.

(** C1. For a wrapped export called with [args] in state None: the wrapper
    invokes the original export with [args]; as long as the state is
    Unwinding it stops unwinding, awaits the pending value, finds the state
    idle, starts rewinding at [data_addr] and re-invokes the original export
    with the same [args]; once a call of the original export completes with
    state None, the asynchronous result resolves with that call's result (and
    it resolves in no other way), and once a call completes in a state that
    is neither Unwinding nor None, the asynchronous result is rejected with
    the invalid-state error. *)
Theorem export_wrapper_drives_the_cycle
        (fn : JsFn) (args : list Val) (w wf : World) (final : Val) :
  asyncify_state (instance w) = State.None ->
  (export_run await_ idle fn args w final wf <->
   exists fuel, forall fuel', (fuel <= fuel')%nat ->
     newExport await_ fuel' fn args w = Some (Ok final wf))
  /\ (export_run await_ stray fn args w final wf ->
      exists fuel, forall fuel', (fuel <= fuel')%nat ->
        newExport await_ fuel' fn args w
        = Some (Throw (InvalidAsyncState (asyncify_state (instance wf))) wf)).
Proof.
  intros Hst. split; [split|].
  - intros (result & w1 & Hfn & Hrun).
    destruct (export_turns_loop idle fn args result final w1 wf) as [fuel Hfuel].
    + unfold idle. intros w' Hw'. rewrite Hw'. discriminate.
    + exact Hrun.
    + exists fuel. intros fuel' Hle. unfold newExport, bind.
      rewrite (assertNoneState_idle w Hst), Hfn, (Hfuel fuel' Hle).
      assert (Hwf : idle wf) by (clear -Hrun; induction Hrun; auto).
      rewrite (assertNoneState_idle wf Hwf). reflexivity.
  - intros [fuel Hfuel]. specialize (Hfuel fuel (Nat.le_refl fuel)).
    unfold newExport, bind in Hfuel. rewrite (assertNoneState_idle w Hst) in Hfuel.
    destruct (fn args w) as [result w1| |] eqn:Hfn; try discriminate.
    exists result, w1. split; [exact Hfn|].
    eapply export_loop_resolves_inv, Hfuel.
  - intros (result & w1 & Hfn & Hrun).
    destruct (export_turns_loop stray fn args result final w1 wf) as [fuel Hfuel].
    + unfold stray. intros w' [Hw' _]. exact Hw'.
    + exact Hrun.
    + exists fuel. intros fuel' Hle. unfold newExport, bind.
      rewrite (assertNoneState_idle w Hst), Hfn, (Hfuel fuel' Hle).
      assert (Hwf : stray wf) by (clear -Hrun; induction Hrun; auto).
      destruct Hwf as [_ Hwf].
      rewrite (assertNoneState_busy wf Hwf). reflexivity.
Qed.

End ExportWrapper.

(** Witness for C6: a second call made while a rewind is in progress. *)
Lemma export_while_busy_rejects_witness :
  newExport fulfils_with_7 3 suspending_export [] (counting_world State.Rewinding (VNum 7))
  = Some (Throw (InvalidAsyncState State.Rewinding) (counting_world State.Rewinding (VNum 7))).
Proof.
  apply (export_while_busy_rejects fulfils_with_7 3 suspending_export []
           (counting_world State.Rewinding (VNum 7))).
  vm_compute. discriminate.
Defined.

(** Witness for C1: one suspension, resolved through the replay. *)
Lemma export_wrapper_drives_the_cycle_witness :
  exists fuel, forall fuel', (fuel <= fuel')%nat ->
    newExport fulfils_with_7 fuel' suspending_export [] (counting_world State.None VUndefined)
    = Some (Ok (VNum 7) (after_cycles 1 (VNum 7) 0)).
Proof.
  apply (proj1 (export_wrapper_drives_the_cycle fulfils_with_7 suspending_export []
                  (counting_world State.None VUndefined) (after_cycles 1 (VNum 7) 0)
                  (VNum 7) eq_refl)).
  exists (VNum 0), (suspended_with (a_promise 1) (counting_world State.None VUndefined)).
  split; [reflexivity|].
  eapply turns_again; [reflexivity | reflexivity | reflexivity | reflexivity
                      | reflexivity | reflexivity | reflexivity |].
  apply turns_done. reflexivity.
Defined.

(** C1 as stated fails: the replay of [stalled_export] completes with state
    Rewinding, which is not Unwinding, yet the asynchronous result is not
    resolved with its result. *)
Lemma resolves_when_not_unwinding_fails :
  ~ resolves_when_not_unwinding fulfils_with_7 stalled_export []
      (counting_world State.None VUndefined).
Proof.
  intros H.
  destruct (H (VNum 5) stalled_world eq_refl) as [fuel Hfuel].
  - exists (VNum 0), (suspended_with (a_promise 1) (counting_world State.None VUndefined)).
    split; [reflexivity|].
    eapply turns_again; [reflexivity | reflexivity | reflexivity | reflexivity
                        | reflexivity | reflexivity | reflexivity |].
    apply turns_done. unfold not_unwinding. cbn. discriminate.
  - destruct fuel as [|[|fuel]]; vm_compute in Hfuel; discriminate.
Qed.

(** ** The wrapper registry *)

Section Registry.

Context {Host Frames : Type}.
Local Abbreviation Function := (@Function Host Frames).
Local Abbreviation Heap := (@Heap Host Frames).
Variable await_ : Val -> M Host Frames Val.

Lemma wrapExportFn_cached (fn : Function) (h : Heap) (w : AsyncFunction) :
  WRAPPED_EXPORTS h !! fun_id fn = Some w -> wrapExportFn await_ fn h = (w, h).
Proof. intros Hw. unfold wrapExportFn. rewrite Hw. reflexivity. Qed.

Lemma wrapExportFn_registers (fn : Function) (h : Heap) :
  WRAPPED_EXPORTS (snd (wrapExportFn await_ fn h)) !! fun_id fn
  = Some (fst (wrapExportFn await_ fn h)).
Proof.
  unfold wrapExportFn.
  destruct (WRAPPED_EXPORTS h !! fun_id fn) as [w|] eqn:Hw; cbn.
  - exact Hw.
  - apply lookup_insert_eq.
Qed.

Lemma wrapExportFn_keeps (fn : Function) (h : Heap) (k : nat) (w : AsyncFunction) :
  WRAPPED_EXPORTS h !! k = Some w ->
  WRAPPED_EXPORTS (snd (wrapExportFn await_ fn h)) !! k = Some w.
Proof.
  intros Hk. unfold wrapExportFn.
  destruct (WRAPPED_EXPORTS h !! fun_id fn) as [w'|] eqn:Hw; cbn.
  - exact Hk.
  - rewrite lookup_insert_ne; [exact Hk|]. intros E. rewrite E in Hw. congruence.
Qed.

Lemma wrapExport_keeps (name : string) (value : ExportVal Function) (h : Heap)
      (k : nat) (w : AsyncFunction) :
  WRAPPED_EXPORTS h !! k = Some w ->
  WRAPPED_EXPORTS (snd (wrapExport await_ name value h)) !! k = Some w.
Proof.
  intros Hk. unfold wrapExport.
  destruct value as [fn|g| |]; cbn; try exact Hk.
  destruct (negb (startsWith_asyncify name)); cbn; [|exact Hk].
  pose proof (wrapExportFn_keeps fn h k w Hk) as Hkeep.
  destruct (wrapExportFn await_ fn h) as [w' h']. exact Hkeep.
Qed.

Lemma wrapExports_loop_keeps (props : list (string * ExportVal Function)) (h : Heap)
      (k : nat) (w : AsyncFunction) :
  WRAPPED_EXPORTS h !! k = Some w ->
  WRAPPED_EXPORTS (snd (wrapExports_loop await_ props h)) !! k = Some w.
Proof.
  revert h. induction props as [|[name value] rest IH]; intros h Hk; cbn.
  - exact Hk.
  - pose proof (wrapExport_keeps name value h k w Hk) as H1.
    destruct (wrapExport await_ name value h) as [value' h1]. cbn in H1.
    specialize (IH h1 H1).
    destruct (wrapExports_loop await_ rest h1) as [rest' h2]. exact IH.
Qed.

Lemma apply_op_keeps (op : WrapOp) (h : Heap) (k : nat) (w : AsyncFunction) :
  WRAPPED_EXPORTS h !! k = Some w ->
  WRAPPED_EXPORTS (apply_op await_ h op) !! k = Some w.
Proof.
  intros Hk. destruct op as [fn|fn|exports]; cbn.
  - apply wrapExportFn_keeps, Hk.
  - exact Hk.
  - unfold wrapExports. cbn.
    pose proof (wrapExports_loop_keeps (entries exports) (snd (fresh h)) k w Hk) as H1.
    cbn in H1. destruct (wrapExports_loop await_ (entries exports) _) as [props h1].
    exact H1.
Qed.

Lemma apply_ops_keeps (ops : list WrapOp) (h : Heap) (k : nat) (w : AsyncFunction) :
  WRAPPED_EXPORTS h !! k = Some w ->
  WRAPPED_EXPORTS (apply_ops await_ ops h) !! k = Some w.
Proof.
  revert h. induction ops as [|op ops IH]; intros h Hk; cbn.
  - exact Hk.
  - apply IH, apply_op_keeps, Hk.
Qed.

(** C7. Wrapping the same export function again, whatever was wrapped in
    between, yields the wrapper made the first time and leaves the registry
    as it is; an import function gets a new wrapper object at every wrap,
    with the same behaviour. *)
Theorem wrapping_again (fn : Function) (h : Heap) (ops : list WrapOp) :
  wrapExportFn await_ fn (apply_ops await_ ops (snd (wrapExportFn await_ fn h)))
  = (fst (wrapExportFn await_ fn h), apply_ops await_ ops (snd (wrapExportFn await_ fn h)))
  /\ fun_id (fst (wrapImportFn fn (snd (wrapImportFn fn h))))
     <> fun_id (fst (wrapImportFn fn h))
  /\ fun_call (fst (wrapImportFn fn (snd (wrapImportFn fn h))))
     = fun_call (fst (wrapImportFn fn h)).
Proof.
  split; [|split].
  - apply wrapExportFn_cached, apply_ops_keeps, wrapExportFn_registers.
  - cbn. lia.
  - reflexivity.
Qed.

Lemma lookup_wrapExports_loop (props : list (string * ExportVal Function)) (h : Heap)
      (name : string) (value : ExportVal Function) :
  lookup_prop name props = Some value ->
  exists h', lookup_prop name (fst (wrapExports_loop await_ props h))
             = Some (fst (wrapExport await_ name value h')).
Proof.
  revert h. induction props as [|[n v] rest IH]; intros h Hl; cbn in *.
  - discriminate.
  - destruct (wrapExport await_ n v h) as [v' h1] eqn:Hv.
    specialize (IH h1).
    destruct (wrapExports_loop await_ rest h1) as [rest' h2]. cbn in *.
    destruct (String.eqb n name) eqn:En.
    + apply String.eqb_eq in En. subst n. inversion Hl; subst v.
      exists h. rewrite Hv. reflexivity.
    + apply IH, Hl.
Qed.

Lemma reserved_startsWith (name : string) :
  is_reserved name = true -> startsWith_asyncify name = true.
Proof.
  unfold is_reserved, reserved_operations. cbn [existsb].
  intros H. repeat (apply orb_prop in H as [H|H]; [apply String.eqb_eq in H; subst; reflexivity|]).
  discriminate.
Qed.

(** C9. On the wrapped export surface every exported function whose name
    does not start with [asyncify_] is an [async] function, so a call returns
    an asynchronous result whether or not the original export suspends; an
    exported function whose name starts with [asyncify_], the five control and
    query operations among them, is the original function. *)
Theorem exported_functions_are_async (exports : Exports Function) (h : Heap)
        (name : string) (fn : Function) :
  lookup_prop name (entries exports) = Some (ExFunction fn) ->
  (startsWith_asyncify name = false ->
   exists w, lookup_prop name (entries (fst (wrapExports await_ exports h)))
             = Some (ExFunction (Async w)))
  /\ (startsWith_asyncify name = true ->
      lookup_prop name (entries (fst (wrapExports await_ exports h)))
      = Some (ExFunction (Plain fn)))
  /\ (is_reserved name = true -> startsWith_asyncify name = true).
Proof.
  intros Hl.
  assert (Hw : exists h', lookup_prop name (entries (fst (wrapExports await_ exports h)))
                          = Some (fst (wrapExport await_ name (ExFunction fn) h'))).
  { unfold wrapExports. cbn.
    destruct (lookup_wrapExports_loop (entries exports) (snd (fresh h)) name _ Hl) as [h' Hh'].
    exists h'. cbn in Hh'.
    destruct (wrapExports_loop await_ (entries exports) _) as [props h1]. exact Hh'. }
  destruct Hw as [h' Hw]. rewrite Hw. unfold wrapExport.
  split; [|split].
  - intros ->. cbn. destruct (wrapExportFn await_ fn h') as [w h1]. exists w. reflexivity.
  - intros ->. reflexivity.
  - apply reserved_startsWith.
Qed.

End Registry.

(** C7 as stated fails for imports: the second wrapper of a host function is
    another object than the first. *)
Lemma rewrap_import_identical_fails :
  ~ rewrap_import_identical host_function empty_heap.
Proof.
  unfold rewrap_import_identical. intros H.
  apply (f_equal fun_id) in H. cbn in H. discriminate.
Qed.

(** Witness for C9: the entry point of [raw_exports]. *)
Lemma exported_functions_are_async_witness :
  exists w, lookup_prop "main" (entries (fst (wrapExports fulfils_with_7 raw_exports empty_heap)))
            = Some (ExFunction (Async w)).
Proof.
  exact (proj1 (exported_functions_are_async fulfils_with_7 raw_exports empty_heap
                  "main" raw_main eq_refl) eq_refl).
Defined.

(** C9 as stated fails: [asyncify_extra] is an exported function, it is none
    of the five reserved operations, and it is not wrapped. *)
Lemma unreserved_exports_async_fails :
  ~ unreserved_exports_async fulfils_with_7 raw_exports empty_heap.
Proof.
  intros H. destruct (H "asyncify_extra"%string raw_helper eq_refl eq_refl) as [w Hw].
  vm_compute in Hw. discriminate.
Qed.

(** ** Seeding the descriptor *)

Section DescriptorSeeding.

Context {Host Frames : Type}.
Local Abbreviation World := (World Host Frames).
Local Abbreviation JsFn := (@JsFn Host Frames).
Local Abbreviation Function := (@Function Host Frames).
Variable await_ : Val -> M Host Frames Val.

Lemma init_descriptor_stack (exports : Exports Function)
      (imports : option (list (string * list (string * ExportVal Function))))
      (w : World) (gl gs : nat) (addr : Z) :
  resolve_memory exports imports w = Ok (Some ExMemory) w ->
  lookup_prop "__stack_low" (entries exports) = Some (ExGlobal gl) ->
  lookup_prop "__stack_pointer" (entries exports) = Some (ExGlobal gs) ->
  addr = match lookup_prop "__asyncify_data" (entries exports) with
         | Some e => default 0 (export_value (instance w) e)
         | Datatypes.None => DATA_ADDR
         end ->
  0 <= addr -> addr mod 4 = 0 -> addr + 8 <= buffer_bytes (instance w) ->
  word_at w addr = 0 -> word_at w (addr + 4) = 0 ->
  init_descriptor exports imports w
  = Ok tt {| instance := with_memory (<[addr := to_int32 (global_at w gl)]> (memory (instance w)))
                                     (instance w);
             this := {| value := value (this w);
                        data_addr := addr;
                        update_stack_area :=
                          Some {| hook_view := (descriptor_view (instance w) addr);
                                  hook_source := ExGlobal gs |} |};
             host := host w;
             frames := frames w |}.
Proof.
  intros Hmem Hlow Hsp Haddr H0 Halign Hfit Hw0 Hw1.
  unfold init_descriptor. rewrite Hlow, Hsp.
  unfold bind at 1. rewrite Hmem.
  assert (Hget : (match lookup_prop "__asyncify_data" (entries exports) with
                  | Some e => gets (fun w0 : World => default 0 (export_value (instance w0) e))
                  | Datatypes.None => ret DATA_ADDR
                  end) w = Ok addr w).
  { rewrite Haddr. destruct (lookup_prop "__asyncify_data" (entries exports)); reflexivity. }
  unfold bind at 1. rewrite Hget.
  unfold bind at 1. cbn [set_data_addr modify].
  unfold bind at 1. cbn [gets with_this this data_addr].
  unfold bind at 1. cbn [new_Int32Array]. unfold bind at 1. cbn [gets instance with_this].
  assert (Hcond : (addr <? 0) || negb (addr mod 4 =? 0)
                  || (buffer_bytes (instance w) <? addr + 4 * 2) = false).
  { rewrite Halign. cbn [Z.eqb negb]. rewrite orb_false_r.
    apply orb_false_intro; apply Z.ltb_ge; lia. }
  rewrite Hcond. cbn [ret].
  unfold bind at 1. cbn [gets].
  unfold bind at 1. cbn [gets].
  unfold view_get at 1 2. unfold attached. cbn [instance with_this view_buffer].
  rewrite !Nat.eqb_refl.
  cbn [in_view view_length byteOffset Z.leb Z.ltb Z.compare andb
       Pos.compare Pos.compare_cont].
  replace (addr + 4 * 0) with addr by lia. replace (addr + 4 * 1) with (addr + 4) by lia.
  unfold word_at in Hw0, Hw1. rewrite Hw0, Hw1. cbn [is_falsy_word Z.eqb andb].
  unfold bind, on_instance, modify, set_update_stack_area. cbn.
  unfold view_set, attached. cbn [view_buffer]. rewrite Nat.eqb_refl.
  cbn [in_view view_length byteOffset Z.leb Z.ltb Z.compare andb].
  replace (addr + 4 * 0) with addr by lia.
  reflexivity.
Qed.


(** C8. With a zeroed descriptor and the module exporting its stack mark and
    its stack pointer, instantiation writes the stack mark into the first
    word, leaves the second word at zero and registers the hook; a later
    unwind, triggered by a wrapped import that returns an asynchronous value
    while the memory's buffer is still the one instantiation saw (the memory
    has not grown), writes the stack pointer's value of that moment into the
    second word. *)
Theorem descriptor_seeding (exports : Exports Function)
        (imports : option (list (string * list (string * ExportVal Function))))
        (w : World) (h : Heap) (gl gs : nat) (addr : Z) :
  resolve_memory exports imports w = Ok (Some ExMemory) w ->
  lookup_prop "__stack_low" (entries exports) = Some (ExGlobal gl) ->
  lookup_prop "__stack_pointer" (entries exports) = Some (ExGlobal gs) ->
  addr = match lookup_prop "__asyncify_data" (entries exports) with
         | Some e => default 0 (export_value (instance w) e)
         | Datatypes.None => DATA_ADDR
         end ->
  0 <= addr -> addr mod 4 = 0 -> addr + 8 <= buffer_bytes (instance w) ->
  word_at w addr = 0 -> word_at w (addr + 4) = 0 ->
  exists newExports w1,
    fst (init await_ exports imports w h) = Ok newExports w1
    /\ data_addr (this w1) = addr
    /\ word_at w1 addr = to_int32 (global_at w gl)
    /\ word_at w1 (addr + 4) = 0
    /\ forall (fn : JsFn) (args : list Val) (w2 w3 : World) (v : Val),
         this w2 = this w1 ->
         asyncify_state (instance w2) = State.None ->
         fn args w2 = Ok v w3 ->
         this w3 = this w2 ->
         isPromise v = true ->
         buffer (instance w3) = buffer (instance w1) ->
         exists w4,
           wrapImportFn_closure fn args w2 = Ok VUndefined w4
           /\ word_at w4 (addr + 4) = to_int32 (global_at w3 gs)
           /\ word_at w4 addr = word_at w3 addr.
Proof.
  intros Hmem Hlow Hsp Haddr H0 Halign Hfit Hw0 Hw1.
  pose proof (init_descriptor_stack exports imports w gl gs addr
                Hmem Hlow Hsp Haddr H0 Halign Hfit Hw0 Hw1) as Hinit.
  unfold init. rewrite Hinit.
  destruct (wrapExports await_ exports h) as [newExports h'].
  eexists newExports, _. split; [reflexivity|].
  split; [reflexivity|].
  split; [unfold word_at; cbn; rewrite lookup_insert_eq; reflexivity|].
  split.
  { unfold word_at in *. cbn. rewrite lookup_insert_ne by lia. exact Hw1. }
  intros fn args w2 w3 v Hthis Hst Hfn Hframe Hv Hbuf.
  cbn [instance buffer with_memory] in Hbuf.
  exists (suspended_with v w3).
  split.
  { rewrite wrapImportFn_closure_idle by assumption. rewrite Hfn, Hv. reflexivity. }
  unfold suspended_with, word_at. rewrite Hframe, Hthis. cbn.
  unfold view_set, attached, descriptor_view. cbn [view_buffer].
  rewrite Hbuf, Nat.eqb_refl.
  cbn [in_view view_length byteOffset Z.leb Z.ltb Z.compare andb
       Pos.compare Pos.compare_cont]. cbn.
  replace (addr + 4 * 1) with (addr + 4) by lia.
  split.
  - rewrite lookup_insert_eq. reflexivity.
  - rewrite lookup_insert_ne by lia. reflexivity.
Qed.

End DescriptorSeeding.

(** Witness for C8: stack mark 100, stack pointer 500 at instantiation and
    540 when the import suspends. *)
Lemma descriptor_seeding_witness :
  exists newExports w1 w4,
    fst (init fulfils_with_7 stack_exports Datatypes.None (stack_world 500) empty_heap)
    = Ok newExports w1
    /\ word_at w1 16 = 100
    /\ word_at w1 20 = 0
    /\ wrapImportFn_closure (counted (a_promise 1)) [] (set_global 1 540 w1)
       = Ok VUndefined w4
    /\ word_at w4 20 = 540.
Proof.
  destruct (descriptor_seeding fulfils_with_7 stack_exports Datatypes.None
              (stack_world 500) empty_heap 0 1 16)
    as (newExports & w1 & Hinit & Haddr & H0 & H1 & Hnext);
    [reflexivity | reflexivity | reflexivity | reflexivity
    | vm_compute; discriminate | reflexivity | vm_compute; discriminate
    | reflexivity | reflexivity |].
  assert (Hidle : asyncify_state (instance w1) = State.None
                  /\ host w1 = 0%nat).
  { cbn in Hinit. injection Hinit as _ <-. split; reflexivity. }
  destruct Hidle as [Hidle Hhost].
  destruct (Hnext (counted (a_promise 1)) [] (set_global 1 540 w1)
                  (with_host 1%nat (set_global 1 540 w1)) (a_promise 1))
    as (w4 & Hcall & H4 & _);
    [reflexivity | exact Hidle | unfold counted; cbn; rewrite Hhost; reflexivity
    | reflexivity | reflexivity | reflexivity |].
  exists newExports, w1, w4.
  split; [exact Hinit|]. split; [exact H0|]. split; [exact H1|].
  split; [exact Hcall|].
  etransitivity; [exact H4|].
  unfold global_at. cbn. rewrite lookup_insert_eq. reflexivity.
Defined.

(** C8 as stated fails: right after instantiation the second word of the
    descriptor is still zero, not the stack pointer's 500. *)
Lemma seeds_both_words_fails :
  ~ seeds_both_words fulfils_with_7 stack_exports Datatypes.None (stack_world 500)
      empty_heap 100 500.
Proof.
  intros (newExports & w1 & Hinit & _ & H1).
  cbn in Hinit. injection Hinit as _ <-.
  vm_compute in H1. discriminate.
Qed.

(** ** A logical call, end to end *)

Section EndToEnd.

Context {Host : Type}.
Local Abbreviation World := (World Host Frame).
Local Abbreviation JsFn := (@JsFn Host Frame).
Variable settle : Val -> Val.
Variable result_of : list Val -> Val.
Variable sites : list (@CallSite Host).
Variable args : list Val.

Lemma host_call_eq (site : CallSite) (a : list Val) (w : World) (v : Val) (h : Host) :
  host_fn site a (host w) = (v, h) -> host_call site a w = Ok v (with_host h w).
Proof. intros H. unfold host_call. rewrite H. reflexivity. Qed.

Lemma run_from_cons (site : CallSite) (rest : list CallSite) (pc : nat)
      (locals : list Val) (w : World) :
  run_from result_of (site :: rest) pc locals w
  = match wrapImportFn_closure (host_call site) (arguments_of site locals) w with
    | Ok received w' =>
        if asyncify_state (instance w') =? State.Unwinding
        then Ok (VNum 0) (with_frames {| saved_pc := pc; saved_locals := locals |} w')
        else run_from result_of rest (S pc) (locals ++ [received]) w'
    | Throw e w' => Throw e w'
    | Never => Never
    end.
Proof.
  cbn [run_from]. unfold bind at 1.
  destruct (wrapImportFn_closure (host_call site) (arguments_of site locals) w)
    as [received w'| |]; try reflexivity.
  cbv [bind asyncify_get_state gets].
  destruct (asyncify_state (instance w') =? State.Unwinding); reflexivity.
Qed.

Lemma instrumented_rewinding (w : World) :
  asyncify_state (instance w) = State.Rewinding ->
  instrumented result_of sites args w
  = run_from result_of (drop (saved_pc (frames w)) sites)
             (saved_pc (frames w)) (saved_locals (frames w)) w.
Proof.
  intros Hst. cbv [instrumented bind asyncify_get_state gets]. rewrite Hst. reflexivity.
Qed.

Lemma instrumented_idle (w : World) :
  asyncify_state (instance w) = State.None ->
  instrumented result_of sites args w = run_from result_of sites 0 args w.
Proof.
  intros Hst. cbv [instrumented bind asyncify_get_state gets]. rewrite Hst. reflexivity.
Qed.

Lemma run_from_resumes (rest : list CallSite) :
  forall (prefix : list CallSite) (locals : list Val) (w : World),
    sites = prefix ++ rest ->
    asyncify_state (instance w) = State.None ->
    exists r w1 fuel wf,
      run_from result_of rest (length prefix) locals w = Ok r w1
      /\ (forall fuel', (fuel <= fuel')%nat ->
            export_loop (settles settle) fuel' (instrumented result_of sites) args r w1
            = Some (Ok (blocking settle result_of rest locals (host w)).1.1 wf))
      /\ host wf = (blocking settle result_of rest locals (host w)).1.2
      /\ asyncify_state (instance wf) = State.None
      /\ data_addr (this wf) = data_addr (this w)
      /\ control_log (instance wf)
         = control_log (instance w)
           ++ concat (replicate (blocking settle result_of rest locals (host w)).2
                                (cycle (data_addr (this w)))).
Proof.
  induction rest as [|site rest IH]; intros prefix locals w Hsites Hst.
  - exists (result_of locals), w, 1%nat, w. cbn [run_from blocking fst snd replicate concat].
    split; [reflexivity|]. split.
    + intros [|fuel'] Hle; [lia|]. rewrite export_loop_S. rewrite Hst. cbn.
      unfold bind. rewrite (assertNoneState_idle w Hst). reflexivity.
    + rewrite app_nil_r. auto.
  - rewrite run_from_cons.
    destruct (host_fn site (arguments_of site locals) (host w)) as [v h'] eqn:Hhost.
    rewrite (wrapImportFn_closure_idle _ _ w Hst).
    rewrite (host_call_eq site _ w v h' Hhost).
    cbn [blocking]. rewrite Hhost.
    destruct (isPromise v) eqn:Hv.
    + pose proof (suspended_with_facts v (with_host h' w))
        as (Hs1 & Hs2 & Hs3 & Hs4 & Hs5 & Hs6 & Hs7 & Hs8).
      rewrite Hs1. cbn [Z.eqb State.Unwinding Pos.eqb].
      set (ws := with_frames {| saved_pc := length prefix; saved_locals := locals |}
                             (suspended_with v (with_host h' w))).
      assert (Hbody : exists w6,
                 loop_body (settles settle) (instrumented result_of sites) args ws
                 = run_from result_of rest (S (length prefix)) (locals ++ [settle v]) w6
                 /\ asyncify_state (instance w6) = State.None
                 /\ host w6 = h'
                 /\ data_addr (this w6) = data_addr (this w)
                 /\ control_log (instance w6)
                    = control_log (instance w) ++ cycle (data_addr (this w))).
      { eexists. split.
        - unfold loop_body.
          cbv [bind asyncify_stop_unwind asyncify_start_rewind on_instance modify gets
               settles set_value].
          rewrite assertNoneState_idle by reflexivity.
          rewrite instrumented_rewinding by reflexivity.
          cbn [frames with_instance with_this with_frames ws saved_pc saved_locals].
          subst ws. cbn [frames with_instance with_this with_frames saved_pc saved_locals].
          rewrite Hsites, drop_app_length.
          rewrite run_from_cons.
          rewrite wrapImportFn_closure_rewinding by reflexivity.
          cbn. reflexivity.
        - cbn. repeat split.
          destruct (update_stack_area (this w)) as [hook|]; cbn;
            rewrite ?(proj1 (proj2 (proj2 (view_set_control _ _ _ _))));
            rewrite <- !app_assoc; reflexivity. }
      destruct Hbody as (w6 & Hloop & H6st & H6host & H6addr & H6log).
      destruct (IH (prefix ++ [site]) (locals ++ [settle v]) w6)
        as (r' & w1' & fuel & wf & Hrun & Hfuel & Hhost' & Hstf & Haddrf & Hlogf).
      { rewrite <- app_assoc. exact Hsites. }
      { exact H6st. }
      rewrite length_app, Nat.add_1_r in Hrun. rewrite H6host in *.
      destruct (blocking settle result_of rest (locals ++ [settle v]) h') as [[r0 hf] n].
      cbn [fst snd] in *.
      exists (VNum 0), ws, (S fuel), wf.
      split; [reflexivity|]. split; [|split; [exact Hhost'|split; [exact Hstf|split]]].
      * intros [|fuel'] Hle; [lia|]. rewrite export_loop_S.
        replace (asyncify_state (instance ws)) with State.Unwinding by (symmetry; exact Hs1).
        cbn [Z.eqb State.Unwinding Pos.eqb].
        rewrite Hloop, Hrun. apply Hfuel. lia.
      * rewrite Haddrf. exact H6addr.
      * rewrite Hlogf, H6log, H6addr. cbn [replicate concat].
        rewrite <- app_assoc. reflexivity.
    + cbn [instance with_host]. rewrite Hst. cbn [Z.eqb State.None State.Unwinding].
      destruct (IH (prefix ++ [site]) (locals ++ [v]) (with_host h' w))
        as (r' & w1' & fuel & wf & Hrun & Hfuel & Hhost' & Hstf & Haddrf & Hlogf).
      { rewrite <- app_assoc. exact Hsites. }
      { exact Hst. }
      rewrite length_app, Nat.add_1_r in Hrun.
      cbn [host instance this with_host] in Hfuel, Hhost', Haddrf, Hlogf.
      exists r', w1', fuel, wf. repeat split; assumption.
Qed.

Lemma newExport_instrumented (w : World) :
  asyncify_state (instance w) = State.None ->
  exists fuel wf,
    (forall fuel', (fuel <= fuel')%nat ->
       newExport (settles settle) fuel' (instrumented result_of sites) args w
       = Some (Ok (blocking settle result_of sites args (host w)).1.1 wf))
    /\ host wf = (blocking settle result_of sites args (host w)).1.2
    /\ asyncify_state (instance wf) = State.None
    /\ control_log (instance wf)
       = control_log (instance w)
         ++ concat (replicate (blocking settle result_of sites args (host w)).2
                              (cycle (data_addr (this w)))).
Proof.
  intros Hst.
  destruct (run_from_resumes sites [] args w eq_refl Hst)
    as (r & w1 & fuel & wf & Hrun & Hfuel & Hhost & Hstf & _ & Hlog).
  exists fuel, wf. split; [|auto].
  intros fuel' Hle. unfold newExport, bind.
  rewrite (assertNoneState_idle w Hst), (instrumented_idle w Hst).
  cbn [length] in Hrun. rewrite Hrun. apply Hfuel, Hle.
Qed.

End EndToEnd.

Lemma blocking_tallied {Host : Type} (settle : Val -> Val) (result_of : list Val -> Val)
      (sites : list (@CallSite Host)) (locals : list Val) (n : nat) (h : Host) :
  blocking settle result_of (map tallied sites) locals (n, h)
  = let '(r, hf, k) := blocking settle result_of sites locals h in
    (r, ((n + length sites)%nat, hf), k).
Proof.
  revert locals n h. induction sites as [|site sites IH]; intros locals n h; cbn.
  - rewrite Nat.add_0_r. reflexivity.
  - destruct (host_fn site (arguments_of site locals) h) as [v h'].
    destruct (isPromise v); rewrite IH;
      destruct (blocking settle result_of sites _ h') as [[r hf] k];
      rewrite Nat.add_succ_r; reflexivity.
Qed.

(** C2. A wrapped import invoked while the state is Rewinding stops the
    rewind and returns the stored pending value, whatever the underlying host
    function is.  Hence a logical call of an instrumented export, the host
    functions of its call sites tallied, resolves with the result of the
    blocking run and leaves the host as the blocking run does; the tally has
    grown by the number of call sites, one call per site and none during
    replay, and the engine has gone through one unwind/rewind cycle per
    asynchronous result. *)
Theorem replay_short_circuits {Host Frames : Type}
        (fn : @JsFn Host Frames) (args : list Val) (w : World Host Frames)
        (settle : Val -> Val) (result_of : list Val -> Val)
        (sites : list (@CallSite Host)) (export_args : list Val)
        (w0 : World (nat * Host) Frame) :
  asyncify_state (instance w) = State.Rewinding ->
  asyncify_state (instance w0) = State.None ->
  wrapImportFn_closure fn args w = Ok (value (this w)) (replayed w)
  /\ asyncify_state (instance (replayed w)) = State.None
  /\ host (replayed w) = host w
  /\ exists fuel wf,
       (forall fuel', (fuel <= fuel')%nat ->
          newExport (settles settle) fuel' (instrumented result_of (map tallied sites))
                    export_args w0
          = Some (Ok (blocking settle result_of sites export_args (snd (host w0))).1.1 wf))
       /\ host wf = ((fst (host w0) + length sites)%nat,
                     (blocking settle result_of sites export_args (snd (host w0))).1.2)
       /\ asyncify_state (instance wf) = State.None
       /\ control_log (instance wf)
          = control_log (instance w0)
            ++ concat (replicate (blocking settle result_of sites export_args (snd (host w0))).2
                                 (cycle (data_addr (this w0)))).
Proof.
  intros Hrew Hidle.
  split; [apply wrapImportFn_closure_rewinding, Hrew|].
  split; [reflexivity|]. split; [reflexivity|].
  destruct (newExport_instrumented settle result_of (map tallied sites) export_args w0 Hidle)
    as (fuel & wf & Hfuel & Hhost & Hst & Hlog).
  destruct (host w0) as [n h] eqn:Hh0.
  rewrite blocking_tallied in Hfuel, Hhost, Hlog.
  cbn [fst snd].
  destruct (blocking settle result_of sites export_args h) as [[r hf] k].
  exists fuel, wf. auto.
Qed.

(** Witness for C2: an export that calls a delayed import twice (the
    specification's scenario C); the tally is 2 at completion and the engine
    has seen two cycles. *)
Lemma replay_short_circuits_witness :
  wrapImportFn_closure (counted (VNum 42)) [] (counting_world State.Rewinding (VNum 7))
  = Ok (VNum 7) (replayed (counting_world State.Rewinding (VNum 7)))
  /\ exists fuel wf,
       (forall fuel', (fuel <= fuel')%nat ->
          newExport (settles (fun _ => VNum 7)) fuel'
                    (instrumented last_received (map tallied [delayed_import; delayed_import]))
                    [] scenario_world
          = Some (Ok (VNum 7) wf))
       /\ host wf = (2%nat, 0%nat)
       /\ control_log (instance wf) = cycle DATA_ADDR ++ cycle DATA_ADDR.
Proof.
  destruct (replay_short_circuits (counted (VNum 42)) []
              (counting_world State.Rewinding (VNum 7))
              (fun _ => VNum 7) last_received [delayed_import; delayed_import] []
              scenario_world eq_refl eq_refl)
    as (Hcall & _ & _ & fuel & wf & Hfuel & Hhost & _ & Hlog).
  split; [exact Hcall|].
  exists fuel, wf. split; [exact Hfuel|]. split; [exact Hhost|exact Hlog].
Defined.

(** * Further properties *)

(** ** Errors through the wrappers *)

Section WrapperErrors.

Context {Host Frames : Type}.
Local Abbreviation World := (World Host Frames).
Local Abbreviation JsFn := (@JsFn Host Frames).
Variable await_ : Val -> M Host Frames Val.

(** X1. In state None an exception of the host function passes through the
    import wrapper unchanged, in the world the host function left: the
    wrapper starts no unwind and does not write the pending value. *)
Theorem import_propagates_exception (fn : JsFn) (args : list Val) (w w1 : World) (e : Err) :
  asyncify_state (instance w) = State.None ->
  fn args w = Throw e w1 ->
  wrapImportFn_closure fn args w = Throw e w1.
Proof.
  intros Hst Hfn. rewrite wrapImportFn_closure_idle by assumption.
  rewrite Hfn. reflexivity.
Qed.

(** X2. A logical call that does not suspend is settled by the first call
    of the original export, whatever the scheduler: when that call throws, the
    wrapped export's promise is rejected with the exception, and when it
    returns with the state None, the promise is resolved with its result;
    either way in the world that call left, nothing having been awaited and
    no control operation issued. *)
Theorem export_settles_on_first_call (fn : JsFn) (args : list Val) (w : World) :
  asyncify_state (instance w) = State.None ->
  (forall e w1 fuel,
      fn args w = Throw e w1 ->
      newExport await_ fuel fn args w = Some (Throw e w1))
  /\ (forall result w1 fuel,
        fn args w = Ok result w1 ->
        asyncify_state (instance w1) = State.None ->
        newExport await_ (S fuel) fn args w = Some (Ok result w1)).
Proof.
  intros Hst. split.
  - intros e w1 fuel Hfn. unfold newExport, bind.
    rewrite (assertNoneState_idle w Hst), Hfn. reflexivity.
  - intros result w1 fuel Hfn Hst1. unfold newExport, bind.
    rewrite (assertNoneState_idle w Hst), Hfn, export_loop_S, Hst1.
    cbn [Z.eqb State.None State.Unwinding]. unfold bind.
    rewrite (assertNoneState_idle w1 Hst1). reflexivity.
Qed.

Lemma loop_body_awaits (fn : JsFn) (args : list Val) (w : World) :
  loop_body await_ fn args w
  = match await_ (value (this w)) (unwound w) with
    | Ok settled w2 =>
        match assertNoneState (with_value settled w2) with
        | Ok _ w3 =>
            fn args (with_instance
                       (control (StartRewind (data_addr (this w3))) State.Rewinding
                                (to_int32 (data_addr (this w3))) (instance w3)) w3)
        | Throw e w3 => Throw e w3
        | Never => Never
        end
    | Throw e w2 => Throw e w2
    | Never => Never
    end.
Proof.
  unfold loop_body. unfold bind at 1. cbn [asyncify_stop_unwind on_instance modify].
  unfold bind at 1. cbn [gets]. unfold bind at 1.
  change (with_instance _ w) with (unwound w).
  change (value (this (unwound w))) with (value (this w)).
  destruct (await_ (value (this w)) (unwound w)) as [settled w2| |]; reflexivity.
Qed.

(** X3. When the awaited pending value is rejected, the wrapped export's
    promise is rejected with the same reason.  The engine has been told to
    stop unwinding and nothing more: no rewind is started and the original
    export is not called again. *)
Theorem export_rejects_when_await_rejects
        (fuel : nat) (fn : JsFn) (args : list Val) (w w1 w2 : World) (result : Val) (e : Err) :
  asyncify_state (instance w) = State.None ->
  fn args w = Ok result w1 ->
  asyncify_state (instance w1) = State.Unwinding ->
  await_ (value (this w1)) (unwound w1) = Throw e w2 ->
  newExport await_ (S fuel) fn args w = Some (Throw e w2)
  /\ asyncify_state (instance (unwound w1)) = State.None
  /\ control_log (instance (unwound w1)) = control_log (instance w1) ++ [StopUnwind].
Proof.
  intros Hst Hfn Hst1 Hawait. split; [|split; reflexivity].
  unfold newExport, bind.
  rewrite (assertNoneState_idle w Hst), Hfn, export_loop_S, Hst1.
  cbn [Z.eqb State.Unwinding Pos.eqb].
  rewrite loop_body_awaits, Hawait. reflexivity.
Qed.

(** X4. When the awaited value is fulfilled but the instance is not idle at
    that moment, the wrapped export's promise is rejected with the
    invalid-state error: the settled value has been stored in the pending
    slot, but no rewind is started and the original export is not called
    again. *)
Theorem export_rejects_when_busy_after_await
        (fuel : nat) (fn : JsFn) (args : list Val) (w w1 w2 : World) (result settled : Val) :
  asyncify_state (instance w) = State.None ->
  fn args w = Ok result w1 ->
  asyncify_state (instance w1) = State.Unwinding ->
  await_ (value (this w1)) (unwound w1) = Ok settled w2 ->
  asyncify_state (instance w2) <> State.None ->
  newExport await_ (S fuel) fn args w
  = Some (Throw (InvalidAsyncState (asyncify_state (instance w2))) (with_value settled w2))
  /\ control_log (instance (with_value settled w2)) = control_log (instance w2)
  /\ value (this (with_value settled w2)) = settled.
Proof.
  intros Hst Hfn Hst1 Hawait Hbusy. split; [|split; reflexivity].
  unfold newExport, bind.
  rewrite (assertNoneState_idle w Hst), Hfn, export_loop_S, Hst1.
  cbn [Z.eqb State.Unwinding Pos.eqb].
  rewrite loop_body_awaits, Hawait.
  rewrite (assertNoneState_busy (with_value settled w2)) by exact Hbusy.
  reflexivity.
Qed.

(** X5. While a wrapped export awaits, the state is None, so the entry check
    of the wrappers does not guard that window: a call of any wrapped export
    made in the world right after [asyncify_stop_unwind] goes on to invoke
    its original export, and a wrapped import called there invokes its host
    function. *)
Theorem await_window_is_unguarded
        (fuel : nat) (fn : JsFn) (args : list Val) (w : World) :
  newExport await_ fuel fn args (unwound w)
  = match fn args (unwound w) with
    | Ok result w' => export_loop await_ fuel fn args result w'
    | Throw e w' => Some (Throw e w')
    | Never => Some Never
    end
  /\ wrapImportFn_closure fn args (unwound w)
     = match fn args (unwound w) with
       | Ok v w' => if isPromise v then Ok VUndefined (suspended_with v w') else Ok v w'
       | Throw e w' => Throw e w'
       | Never => Never
       end.
Proof.
  split.
  - unfold newExport, bind. rewrite (assertNoneState_idle (unwound w)) by reflexivity.
    reflexivity.
  - apply wrapImportFn_closure_idle. reflexivity.
Qed.

End WrapperErrors.

(** Witness for X1: a counting host function that throws. *)
Lemma import_propagates_exception_witness :
  wrapImportFn_closure (failing (VStr "boom")) [] (counting_world State.None VUndefined)
  = Throw (Thrown (VStr "boom")) (with_host 1%nat (counting_world State.None VUndefined)).
Proof.
  apply (import_propagates_exception (failing (VStr "boom")) []
           (counting_world State.None VUndefined)); reflexivity.
Defined.

(** Witness for X2: a host function that throws, and an export that returns
    3, under a scheduler that would reject whatever is awaited. *)
Lemma export_settles_on_first_call_witness :
  newExport (rejects_with VNull) 0 (failing (VStr "boom")) []
            (counting_world State.None VUndefined)
  = Some (Throw (Thrown (VStr "boom")) (with_host 1%nat (counting_world State.None VUndefined)))
  /\ newExport (rejects_with VNull) 1 plain_export [] (counting_world State.None VUndefined)
     = Some (Ok (VNum 3) (counting_world State.None VUndefined)).
Proof.
  split.
  - exact (proj1 (export_settles_on_first_call (rejects_with VNull) (failing (VStr "boom")) []
                    (counting_world State.None VUndefined) eq_refl)
                 _ _ 0%nat eq_refl).
  - exact (proj2 (export_settles_on_first_call (rejects_with VNull) plain_export []
                    (counting_world State.None VUndefined) eq_refl)
                 _ _ 0%nat eq_refl eq_refl).
Defined.

(** Witness for X3: the promise the import returned is rejected. *)
Lemma export_rejects_when_await_rejects_witness :
  newExport (rejects_with (VStr "late")) 1 suspending_export []
            (counting_world State.None VUndefined)
  = Some (Throw (Thrown (VStr "late"))
                (unwound (suspended_with (a_promise 1) (counting_world State.None VUndefined)))).
Proof.
  apply (export_rejects_when_await_rejects (rejects_with (VStr "late")) 0 suspending_export []
           (counting_world State.None VUndefined)
           (suspended_with (a_promise 1) (counting_world State.None VUndefined))
           _ (VNum 0)); reflexivity.
Defined.

(** Witness for X4: other work left the instance rewinding. *)
Lemma export_rejects_when_busy_after_await_witness :
  exists w2,
    newExport meddles 1 suspending_export [] (counting_world State.None VUndefined)
    = Some (Throw (InvalidAsyncState State.Rewinding) (with_value (VNum 7) w2)).
Proof.
  pose (w1 := suspended_with (a_promise 1) (counting_world State.None VUndefined)).
  exists (with_instance (control (StartRewind DATA_ADDR) State.Rewinding DATA_ADDR
                                 (instance (unwound w1))) (unwound w1)).
  apply (export_rejects_when_busy_after_await meddles 0 suspending_export []
           (counting_world State.None VUndefined) w1
           (with_instance (control (StartRewind DATA_ADDR) State.Rewinding DATA_ADDR
                                   (instance (unwound w1))) (unwound w1))
           (VNum 0) (VNum 7));
    [reflexivity | reflexivity | reflexivity | reflexivity | cbn; discriminate].
Defined.

Section Instantiation.

Context {Host Frames : Type}.
Local Abbreviation World := (World Host Frames).
Local Abbreviation Function := (@Function Host Frames).
Local Abbreviation Heap := (@Heap Host Frames).
Variable await_ : Val -> M Host Frames Val.

Lemma init_descriptor_on_memory (exports : Exports Function)
      (imports : option (list (string * list (string * ExportVal Function))))
      (w : World) (addr : Z) :
  resolve_memory exports imports w = Ok (Some ExMemory) w ->
  addr = resolved_addr exports w ->
  0 <= addr -> addr mod 4 = 0 -> addr + 8 <= buffer_bytes (instance w) ->
  init_descriptor exports imports w
  = (if (word_at w addr =? 0) && (word_at w (addr + 4) =? 0) then
       match lookup_prop "__stack_low" (entries exports),
             lookup_prop "__stack_pointer" (entries exports) with
       | Some stack_low, Some stack_pointer =>
           let* _ := on_instance (fun i =>
                       view_set (descriptor_view (instance w) addr) 0
                                (export_value i stack_low) i) in
           set_update_stack_area {| hook_view := (descriptor_view (instance w) addr);
                                    hook_source := export_map fun_id stack_pointer |}
       | _, _ => view_set_pair (descriptor_view (instance w) addr) DATA_START DATA_END
       end
     else ret tt)
      (with_this {| value := value (this w); data_addr := addr;
                    update_stack_area := update_stack_area (this w) |} w).
Proof.
  intros Hmem Haddr H0 Halign Hfit.
  unfold init_descriptor. unfold bind at 1. rewrite Hmem.
  assert (Hget : (match lookup_prop "__asyncify_data" (entries exports) with
                  | Some e => gets (fun w0 : World => default 0 (export_value (instance w0) e))
                  | Datatypes.None => ret DATA_ADDR
                  end) w = Ok addr w).
  { rewrite Haddr. unfold resolved_addr.
    destruct (lookup_prop "__asyncify_data" (entries exports)); reflexivity. }
  unfold bind at 1. rewrite Hget.
  unfold bind at 1. cbn [set_data_addr modify].
  unfold bind at 1. cbn [gets with_this this data_addr].
  unfold bind at 1. cbn [new_Int32Array]. unfold bind at 1. cbn [gets instance with_this].
  assert (Hcond : (addr <? 0) || negb (addr mod 4 =? 0)
                  || (buffer_bytes (instance w) <? addr + 4 * 2) = false).
  { rewrite Halign. cbn [Z.eqb negb]. rewrite orb_false_r.
    apply orb_false_intro; apply Z.ltb_ge; lia. }
  rewrite Hcond. cbn [ret].
  unfold bind at 1. cbn [gets].
  unfold bind at 1. cbn [gets].
  unfold view_get at 1 2. unfold attached. cbn [instance with_this view_buffer].
  rewrite !Nat.eqb_refl.
  cbn [in_view view_length byteOffset Z.leb Z.ltb Z.compare andb
       Pos.compare Pos.compare_cont].
  replace (addr + 4 * 0) with addr by lia. replace (addr + 4 * 1) with (addr + 4) by lia.
  reflexivity.
Qed.


Lemma init_descriptor_frame (exports : Exports Function)
      (imports : option (list (string * list (string * ExportVal Function))))
      (w : World) :
  match init_descriptor exports imports w with
  | Ok _ w1 => descriptor_only w w1 /\ data_addr (this w1) = resolved_addr exports w
  | Throw e w1 => instance w1 = instance w /\ value (this w1) = value (this w)
                  /\ host w1 = host w /\ frames w1 = frames w
  | Never => False
  end.
Proof.
  unfold init_descriptor, resolve_memory, resolved_addr, descriptor_only.
  cbv [bind ret throw gets modify set_data_addr new_Int32Array view_set_pair on_instance
       set_update_stack_area].
  repeat match goal with
         | |- context [match ?x with _ => _ end] =>
             lazymatch x with
             | context [match _ with _ => _ end] => fail
             | _ => destruct x eqn:?
             end
         end.
  all: unfold view_set, attached, in_view; cbn.
  all: repeat match goal with
         | |- context [if ?b then _ else _] => destruct b
         end.
  all: cbn.
  all: repeat split; try reflexivity; try contradiction.
  all: intros a Ha0 Ha4; rewrite ?lookup_insert_ne by lia; try reflexivity.
Qed.

Lemma init_outcome (exports : Exports Function)
      (imports : option (list (string * list (string * ExportVal Function))))
      (w : World) (h : Heap) :
  init await_ exports imports w h
  = match init_descriptor exports imports w with
    | Ok _ w1 => (Ok (fst (wrapExports await_ exports h)) w1, snd (wrapExports await_ exports h))
    | Throw e w1 => (Throw e w1, h)
    | Never => (Never, h)
    end.
Proof.
  unfold init. destruct (init_descriptor exports imports w); try reflexivity.
  destruct (wrapExports await_ exports h). reflexivity.
Qed.

(** X6. Whatever its outcome, [init] leaves the engine state, the control
    log, the globals, the pending value and the host alone.  When it
    succeeds, [data_addr] is the value of the [__asyncify_data] export (16
    without one) and no word of memory has moved but the two of the
    descriptor at that address; when it throws, the instance is untouched
    and nothing has been wrapped or registered. *)
Theorem init_touches_only_the_descriptor (exports : Exports Function)
        (imports : option (list (string * list (string * ExportVal Function))))
        (w : World) (h : Heap) :
  match fst (init await_ exports imports w h) with
  | Ok _ w1 => descriptor_only w w1 /\ data_addr (this w1) = resolved_addr exports w
  | Throw e w1 => instance w1 = instance w /\ value (this w1) = value (this w)
                  /\ host w1 = host w /\ frames w1 = frames w
                  /\ snd (init await_ exports imports w h) = h
  | Never => False
  end.
Proof.
  rewrite init_outcome. pose proof (init_descriptor_frame exports imports w) as H.
  destruct (init_descriptor exports imports w) as [u w1|e w1|]; cbn [fst snd]; tauto.
Qed.

Lemma init_descriptor_default (exports : Exports Function)
      (imports : option (list (string * list (string * ExportVal Function))))
      (w : World) (addr : Z) :
  resolve_memory exports imports w = Ok (Some ExMemory) w ->
  addr = resolved_addr exports w ->
  0 <= addr -> addr mod 4 = 0 -> addr + 8 <= buffer_bytes (instance w) ->
  word_at w addr = 0 -> word_at w (addr + 4) = 0 ->
  lookup_prop "__stack_low" (entries exports) = Datatypes.None
  \/ lookup_prop "__stack_pointer" (entries exports) = Datatypes.None ->
  init_descriptor exports imports w
  = Ok tt {| instance := with_memory (<[addr + 4 := DATA_END]>
                                        (<[addr := DATA_START]> (memory (instance w))))
                                     (instance w);
             this := {| value := value (this w); data_addr := addr;
                        update_stack_area := update_stack_area (this w) |};
             host := host w;
             frames := frames w |}.
Proof.
  intros Hmem Haddr H0 Halign Hfit Hw0 Hw1 Hsym.
  rewrite (init_descriptor_on_memory exports imports w addr) by assumption.
  rewrite Hw0, Hw1. cbn [Z.eqb andb].
  assert (Hbranch :
            match lookup_prop "__stack_low" (entries exports),
                  lookup_prop "__stack_pointer" (entries exports) with
            | Some stack_low, Some stack_pointer =>
                let* _ := on_instance (fun i =>
                            view_set (descriptor_view (instance w) addr) 0
                                     (export_value i stack_low) i) in
                set_update_stack_area
                  {| hook_view := (descriptor_view (instance w) addr);
                     hook_source := export_map fun_id stack_pointer |}
            | _, _ => view_set_pair (descriptor_view (instance w) addr)
                                    DATA_START DATA_END
            end = view_set_pair (Host:=Host) (Frames:=Frames)
                                (descriptor_view (instance w) addr)
                                DATA_START DATA_END).
  { destruct Hsym as [-> | ->]; [reflexivity|].
    destruct (lookup_prop "__stack_low" (entries exports)); reflexivity. }
  rewrite Hbranch, view_set_pair_attached by reflexivity.
  reflexivity.
Qed.

Lemma init_descriptor_kept (exports : Exports Function)
      (imports : option (list (string * list (string * ExportVal Function))))
      (w : World) (addr : Z) :
  resolve_memory exports imports w = Ok (Some ExMemory) w ->
  addr = resolved_addr exports w ->
  0 <= addr -> addr mod 4 = 0 -> addr + 8 <= buffer_bytes (instance w) ->
  word_at w addr <> 0 \/ word_at w (addr + 4) <> 0 ->
  init_descriptor exports imports w
  = Ok tt (with_this {| value := value (this w); data_addr := addr;
                        update_stack_area := update_stack_area (this w) |} w).
Proof.
  intros Hmem Haddr H0 Halign Hfit Hset.
  rewrite (init_descriptor_on_memory exports imports w addr) by assumption.
  assert (Hz : (word_at w addr =? 0) && (word_at w (addr + 4) =? 0) = false).
  { apply andb_false_iff. destruct Hset as [H|H]; [left|right]; apply Z.eqb_neq, H. }
  rewrite Hz. reflexivity.
Qed.

(** X7. With a [WebAssembly.Memory], a descriptor address that fits and a
    zeroed descriptor, and the module not exporting both stack symbols, [init]
    seeds the descriptor with the fixed window: first word [DATA_START] = 24,
    second word [DATA_END] = 1024, wherever the descriptor lies, and registers
    no hook. *)
Theorem init_seeds_defaults (exports : Exports Function)
        (imports : option (list (string * list (string * ExportVal Function))))
        (w : World) (h : Heap) (addr : Z) :
  resolve_memory exports imports w = Ok (Some ExMemory) w ->
  addr = resolved_addr exports w ->
  0 <= addr -> addr mod 4 = 0 -> addr + 8 <= buffer_bytes (instance w) ->
  word_at w addr = 0 -> word_at w (addr + 4) = 0 ->
  lookup_prop "__stack_low" (entries exports) = Datatypes.None
  \/ lookup_prop "__stack_pointer" (entries exports) = Datatypes.None ->
  exists w1,
    fst (init await_ exports imports w h) = Ok (fst (wrapExports await_ exports h)) w1
    /\ data_addr (this w1) = addr
    /\ word_at w1 addr = 24
    /\ word_at w1 (addr + 4) = 1024
    /\ update_stack_area (this w1) = update_stack_area (this w).
Proof.
  intros Hmem Haddr H0 Halign Hfit Hw0 Hw1 Hsym.
  rewrite init_outcome.
  rewrite (init_descriptor_default exports imports w addr) by assumption.
  eexists. split; [reflexivity|]. split; [reflexivity|].
  unfold word_at. cbn. split; [|split; [|reflexivity]].
  - rewrite lookup_insert_ne by lia. rewrite lookup_insert_eq. reflexivity.
  - rewrite lookup_insert_eq. reflexivity.
Qed.

(** X8. With a [WebAssembly.Memory] and a descriptor address that fits, a
    descriptor with a non-zero word is left as it is: [init] writes nothing
    to memory and registers no hook, whether or not the module exports the
    stack symbols. *)
Theorem init_keeps_seeded_descriptor (exports : Exports Function)
        (imports : option (list (string * list (string * ExportVal Function))))
        (w : World) (h : Heap) (addr : Z) :
  resolve_memory exports imports w = Ok (Some ExMemory) w ->
  addr = resolved_addr exports w ->
  0 <= addr -> addr mod 4 = 0 -> addr + 8 <= buffer_bytes (instance w) ->
  word_at w addr <> 0 \/ word_at w (addr + 4) <> 0 ->
  exists w1,
    fst (init await_ exports imports w h) = Ok (fst (wrapExports await_ exports h)) w1
    /\ instance w1 = instance w
    /\ data_addr (this w1) = addr
    /\ update_stack_area (this w1) = update_stack_area (this w).
Proof.
  intros Hmem Haddr H0 Halign Hfit Hset.
  rewrite init_outcome.
  rewrite (init_descriptor_kept exports imports w addr) by assumption.
  eexists. repeat split.
Qed.

Lemma resolve_memory_any (exports : Exports Function)
      (imports : option (list (string * list (string * ExportVal Function))))
      (w w' : World) (m : option (ExportVal Function)) :
  resolve_memory exports imports w = Ok m w -> resolve_memory exports imports w' = Ok m w'.
Proof.
  unfold resolve_memory.
  destruct (lookup_prop "memory" (entries exports)); cbn.
  - intros H. injection H as <-. reflexivity.
  - destruct imports as [imps|]; [|discriminate].
    destruct (lookup_prop "env" imps); cbn; intros H; injection H as <-; reflexivity.
Qed.

Lemma init_descriptor_words (exports : Exports Function)
      (imports : option (list (string * list (string * ExportVal Function))))
      (w : World) (addr : Z) :
  resolve_memory exports imports w = Ok (Some ExMemory) w ->
  addr = resolved_addr exports w ->
  0 <= addr -> addr mod 4 = 0 -> addr + 8 <= buffer_bytes (instance w) ->
  exists w1,
    init_descriptor exports imports w = Ok tt w1
    /\ globals (instance w1) = globals (instance w)
    /\ buffer_bytes (instance w1) = buffer_bytes (instance w)
    /\ ((word_at w addr = 0 /\ word_at w (addr + 4) = 0 ->
         forall a, word_at w1 a
                   = if decide (a = addr) then
                       match lookup_prop "__stack_low" (entries exports),
                             lookup_prop "__stack_pointer" (entries exports) with
                       | Some stack_low, Some _ =>
                           to_int32 (default 0 (export_value (instance w) stack_low))
                       | _, _ => 24
                       end
                     else if decide (a = addr + 4) then
                       match lookup_prop "__stack_low" (entries exports),
                             lookup_prop "__stack_pointer" (entries exports) with
                       | Some _, Some _ => 0
                       | _, _ => 1024
                       end
                     else word_at w a)
        /\ (word_at w addr <> 0 \/ word_at w (addr + 4) <> 0 ->
            forall a, word_at w1 a = word_at w a)).
Proof.
  intros Hmem Haddr H0 Halign Hfit.
  rewrite (init_descriptor_on_memory exports imports w addr) by assumption.
  destruct ((word_at w addr =? 0) && (word_at w (addr + 4) =? 0)) eqn:Hz.
  - apply andb_prop in Hz as [Hz0 Hz1]. apply Z.eqb_eq in Hz0, Hz1.
    destruct (lookup_prop "__stack_low" (entries exports)) as [stack_low|] eqn:Hlow;
      [destruct (lookup_prop "__stack_pointer" (entries exports)) as [stack_pointer|] eqn:Hsp|].
    + eexists. split; [reflexivity|]. cbn.
      rewrite !view_set_attached by reflexivity.
      split; [reflexivity|]. split; [reflexivity|].
      split; [|intros [H|H]; contradiction].
      intros _ a. unfold word_at. cbn.
      replace (addr + 4 * 0) with addr by lia.
      repeat case_decide; subst.
      * rewrite lookup_insert_eq. reflexivity.
      * rewrite lookup_insert_ne by lia. exact Hz1.
      * rewrite lookup_insert_ne by lia. reflexivity.
    + rewrite view_set_pair_attached by reflexivity.
      eexists. split; [reflexivity|]. cbn. split; [reflexivity|]. split; [reflexivity|].
      split; [|intros [H|H]; contradiction].
      intros _ a. unfold word_at. cbn.
      repeat case_decide; subst.
      * rewrite lookup_insert_ne by lia. rewrite lookup_insert_eq. reflexivity.
      * rewrite lookup_insert_eq. reflexivity.
      * rewrite !lookup_insert_ne by lia. reflexivity.
    + rewrite view_set_pair_attached by reflexivity.
      eexists. split; [reflexivity|]. cbn. split; [reflexivity|]. split; [reflexivity|].
      split; [|intros [H|H]; contradiction].
      intros _ a. unfold word_at. cbn.
      repeat case_decide; subst.
      * rewrite lookup_insert_ne by lia. rewrite lookup_insert_eq. reflexivity.
      * rewrite lookup_insert_eq. reflexivity.
      * rewrite !lookup_insert_ne by lia. reflexivity.
  - apply andb_false_iff in Hz.
    eexists. split; [reflexivity|]. cbn. split; [reflexivity|]. split; [reflexivity|].
    split; [|reflexivity].
    intros [Hz0 Hz1]. destruct Hz as [Hz|Hz]; apply Z.eqb_neq in Hz; contradiction.
Qed.

Lemma resolved_addr_globals (exports : Exports Function) (w w' : World) :
  globals (instance w') = globals (instance w) ->
  resolved_addr exports w' = resolved_addr exports w
  /\ forall e : ExportVal Function,
       export_value (instance w') e = export_value (instance w) e.
Proof.
  intros Hg.
  assert (He : forall e : ExportVal Function,
             export_value (instance w') e = export_value (instance w) e).
  { intros [fn|g| |]; cbn; rewrite ?Hg; reflexivity. }
  split; [|exact He].
  unfold resolved_addr. destruct (lookup_prop "__asyncify_data" (entries exports)); [|reflexivity].
  rewrite He. reflexivity.
Qed.

(** X9. Instantiating again over the same instance reseeds nothing: once
    [init] has run on a [WebAssembly.Memory] with a descriptor address that
    fits, a later [init] with the same exports, from any controller state,
    succeeds and leaves every word of memory as the first one left it. *)
Theorem init_again_changes_no_word (exports : Exports Function)
        (imports : option (list (string * list (string * ExportVal Function))))
        (w : World) (h : Heap) (addr : Z) :
  resolve_memory exports imports w = Ok (Some ExMemory) w ->
  addr = resolved_addr exports w ->
  0 <= addr -> addr mod 4 = 0 -> addr + 8 <= buffer_bytes (instance w) ->
  exists w1,
    fst (init await_ exports imports w h) = Ok (fst (wrapExports await_ exports h)) w1
    /\ forall (w' : World) (h' : Heap),
         instance w' = instance w1 ->
         exists w2,
           fst (init await_ exports imports w' h')
           = Ok (fst (wrapExports await_ exports h')) w2
           /\ forall a, word_at w2 a = word_at w1 a.
Proof.
  intros Hmem Haddr H0 Halign Hfit.
  destruct (init_descriptor_words exports imports w addr Hmem Haddr H0 Halign Hfit)
    as (w1 & Hinit & Hg & Hb & Hzero & Hset).
  exists w1. rewrite init_outcome, Hinit. split; [reflexivity|].
  intros w' h' Hinst.
  assert (Hg' : globals (instance w') = globals (instance w)) by (rewrite Hinst; exact Hg).
  destruct (resolved_addr_globals exports w w' Hg') as [Haddr' Hval].
  assert (Hwords : forall a, word_at w' a = word_at w1 a)
    by (intros a; unfold word_at; rewrite Hinst; reflexivity).
  destruct (init_descriptor_words exports imports w' addr) as (w2 & Hinit2 & _ & _ & Hzero2 & Hset2).
  { exact (resolve_memory_any exports imports w w' _ Hmem). }
  { rewrite Haddr'. exact Haddr. }
  { exact H0. }
  { exact Halign. }
  { rewrite Hinst, Hb. exact Hfit. }
  exists w2. rewrite init_outcome, Hinit2. split; [reflexivity|].
  intros a.
  destruct (Z.eq_dec (word_at w' addr) 0) as [Hz0|Hz0];
    [destruct (Z.eq_dec (word_at w' (addr + 4)) 0) as [Hz1|Hz1]|].
  - rewrite (Hzero2 (conj Hz0 Hz1) a).
    rewrite !Hwords in *.
    destruct (Z.eq_dec (word_at w addr) 0) as [Hy0|Hy0];
      [destruct (Z.eq_dec (word_at w (addr + 4)) 0) as [Hy1|Hy1]|].
    + pose proof (Hzero (conj Hy0 Hy1)) as Hw1.
      pose proof (Hw1 addr) as Ha0. pose proof (Hw1 (addr + 4)) as Ha4.
      rewrite decide_True in Ha0 by reflexivity.
      rewrite decide_False in Ha4 by lia. rewrite decide_True in Ha4 by reflexivity.
      destruct (lookup_prop "__stack_low" (entries exports)) as [stack_low|];
        [destruct (lookup_prop "__stack_pointer" (entries exports))|].
      * rewrite Hval. repeat case_decide; subst; congruence.
      * exfalso. rewrite Ha0 in Hz0. discriminate.
      * exfalso. rewrite Ha0 in Hz0. discriminate.
    + exfalso. pose proof (Hset (or_intror Hy1)) as Hw1.
      rewrite Hw1 in Hz1. contradiction.
    + exfalso. pose proof (Hset (or_introl Hy0)) as Hw1.
      rewrite Hw1 in Hz0. contradiction.
  - rewrite (Hset2 (or_intror Hz1) a). apply Hwords.
  - rewrite (Hset2 (or_introl Hz0) a). apply Hwords.
Qed.

(** X10. Without a memory there is no instantiation: when the module exports
    no [memory] and the raw imports provide none under [env], [init] throws a
    [TypeError], leaves the instance untouched, and wraps and registers
    nothing. *)
Theorem init_without_memory_throws (exports : Exports Function)
        (imports : option (list (string * list (string * ExportVal Function))))
        (w : World) (h : Heap) :
  lookup_prop "memory" (entries exports) = Datatypes.None ->
  (forall imps env, imports = Some imps -> lookup_prop "env" imps = Some env ->
                    lookup_prop "memory" env = Datatypes.None) ->
  exists w1,
    init await_ exports imports w h = (Throw TypeError w1, h)
    /\ instance w1 = instance w.
Proof.
  intros Hexp Himp. rewrite init_outcome.
  unfold init_descriptor, resolve_memory. rewrite Hexp.
  destruct imports as [imps|]; [|eexists; split; reflexivity].
  destruct (lookup_prop "env" imps) as [env|] eqn:Henv.
  - rewrite (Himp imps env eq_refl Henv).
    unfold bind at 1. cbn [ret].
    destruct (lookup_prop "__asyncify_data" (entries exports));
      eexists; split; reflexivity.
  - unfold bind at 1. cbn [ret].
    destruct (lookup_prop "__asyncify_data" (entries exports));
      eexists; split; reflexivity.
Qed.

(** X11. With a [WebAssembly.Memory], a descriptor address that is negative,
    not a multiple of 4, or less than 8 bytes from the end of the buffer makes
    [init] throw a [RangeError]: memory is untouched and nothing is wrapped or
    registered, but [data_addr] already holds the address. *)
Theorem init_misplaced_descriptor_throws (exports : Exports Function)
        (imports : option (list (string * list (string * ExportVal Function))))
        (w : World) (h : Heap) (addr : Z) :
  resolve_memory exports imports w = Ok (Some ExMemory) w ->
  addr = resolved_addr exports w ->
  addr < 0 \/ addr mod 4 <> 0 \/ buffer_bytes (instance w) < addr + 8 ->
  exists w1,
    init await_ exports imports w h = (Throw RangeError w1, h)
    /\ instance w1 = instance w
    /\ data_addr (this w1) = addr.
Proof.
  intros Hmem Haddr Hbad. rewrite init_outcome.
  unfold init_descriptor. unfold bind at 1. rewrite Hmem.
  assert (Hget : (match lookup_prop "__asyncify_data" (entries exports) with
                  | Some e => gets (fun w0 : World => default 0 (export_value (instance w0) e))
                  | Datatypes.None => ret DATA_ADDR
                  end) w = Ok addr w).
  { rewrite Haddr. unfold resolved_addr.
    destruct (lookup_prop "__asyncify_data" (entries exports)); reflexivity. }
  unfold bind at 1. rewrite Hget.
  unfold bind at 1. cbn [set_data_addr modify].
  unfold bind at 1. cbn [gets with_this this data_addr].
  unfold bind at 1. cbn [new_Int32Array]. unfold bind at 1. cbn [gets instance with_this].
  assert (Hcond : (addr <? 0) || negb (addr mod 4 =? 0)
                  || (buffer_bytes (instance w) <? addr + 4 * 2) = true).
  { destruct Hbad as [H|[H|H]].
    - apply Z.ltb_lt in H. rewrite H. reflexivity.
    - apply Z.eqb_neq in H. rewrite H. cbn. rewrite orb_true_r. reflexivity.
    - assert (H' : (buffer_bytes (instance w) <? addr + 4 * 2) = true) by (apply Z.ltb_lt; lia).
      rewrite H'. apply orb_true_r. }
  rewrite Hcond. eexists. split; [reflexivity|]. split; reflexivity.
Qed.


End Instantiation.

(** ** The export surface and the import proxies *)

Section SurfaceFacts.

Context {Host Frames : Type}.
Local Abbreviation Function := (@Function Host Frames).
Local Abbreviation Heap := (@Heap Host Frames).
Variable await_ : Val -> M Host Frames Val.

Lemma wrapExport_objects (name : string) (value : ExportVal Function) (h : Heap) :
  WRAPPED_EXPORTS_objects (snd (wrapExport await_ name value h)) = WRAPPED_EXPORTS_objects h.
Proof.
  unfold wrapExport. destruct value as [fn|g| |]; try reflexivity.
  destruct (negb (startsWith_asyncify name)); [|reflexivity].
  unfold wrapExportFn. destruct (WRAPPED_EXPORTS h !! fun_id fn); reflexivity.
Qed.

Lemma wrapExports_loop_objects (props : list (string * ExportVal Function)) (h : Heap) :
  WRAPPED_EXPORTS_objects (snd (wrapExports_loop await_ props h)) = WRAPPED_EXPORTS_objects h.
Proof.
  revert h. induction props as [|[name value] rest IH]; intros h; cbn; [reflexivity|].
  pose proof (wrapExport_objects name value h) as H1.
  destruct (wrapExport await_ name value h) as [value' h1]. cbn in H1.
  specialize (IH h1). destruct (wrapExports_loop await_ rest h1) as [rest' h2].
  cbn in *. congruence.
Qed.

Lemma wrapExports_loop_names (props : list (string * ExportVal Function)) (h : Heap) :
  map fst (fst (wrapExports_loop await_ props h)) = map fst props.
Proof.
  revert h. induction props as [|[name value] rest IH]; intros h; cbn; [reflexivity|].
  destruct (wrapExport await_ name value h) as [value' h1].
  specialize (IH h1). destruct (wrapExports_loop await_ rest h1) as [rest' h2].
  cbn in *. f_equal. exact IH.
Qed.

Lemma lookup_wrapExports_loop_none (props : list (string * ExportVal Function)) (h : Heap)
      (name : string) :
  lookup_prop name props = Datatypes.None ->
  lookup_prop name (fst (wrapExports_loop await_ props h)) = Datatypes.None.
Proof.
  revert h. induction props as [|[n v] rest IH]; intros h Hl; cbn in *; [reflexivity|].
  destruct (wrapExport await_ n v h) as [v' h1].
  specialize (IH h1). destruct (wrapExports_loop await_ rest h1) as [rest' h2].
  cbn in *. destruct (String.eqb n name); [discriminate|]. apply IH, Hl.
Qed.

Lemma wrapExports_entries (exports : Exports Function) (h : Heap) :
  entries (fst (wrapExports await_ exports h))
  = fst (wrapExports_loop await_ (entries exports) (snd (fresh h))).
Proof.
  unfold wrapExports. cbn.
  destruct (wrapExports_loop await_ (entries exports) _) as [props h1]. reflexivity.
Qed.

(** X12. The wrapped export surface has the names of the raw one, in the
    same order; a name the module does not export stays absent, and an
    export that is not a function (a global, the memory, a table) is handed
    over as it is. *)
Theorem wrapExports_keeps_shape (exports : Exports Function) (h : Heap) :
  map fst (entries (fst (wrapExports await_ exports h))) = map fst (entries exports)
  /\ (forall name,
        lookup_prop name (entries exports) = Datatypes.None ->
        lookup_prop name (entries (fst (wrapExports await_ exports h))) = Datatypes.None)
  /\ (forall name value,
        lookup_prop name (entries exports) = Some value ->
        (forall fn, value <> ExFunction fn) ->
        lookup_prop name (entries (fst (wrapExports await_ exports h)))
        = Some (export_map Plain value)).
Proof.
  rewrite wrapExports_entries. split; [apply wrapExports_loop_names|]. split.
  - intros name. apply lookup_wrapExports_loop_none.
  - intros name value Hl Hnf.
    destruct (lookup_wrapExports_loop await_ (entries exports) (snd (fresh h)) name value Hl)
      as [h' Hh']. rewrite Hh'.
    destruct value as [fn|g| |]; try reflexivity. exfalso. exact (Hnf fn eq_refl).
Qed.

(** X13. After a successful [init] the [exports] getter of [Instance] hands
    out, for the raw exports object of that instance, the very object [init]
    stored in [this.exports]; what the getter yields for any other exports
    object is as before. *)
Theorem exports_getter_after_init (exports : Exports Function)
        (imports : option (list (string * list (string * ExportVal Function))))
        (w w1 : World Host Frames) (h : Heap) (newExports : Exports Callable) :
  fst (init await_ exports imports w h) = Ok newExports w1 ->
  Instance_exports exports (snd (init await_ exports imports w h)) = Some newExports
  /\ forall other : Exports Function,
       exports_id other <> exports_id exports ->
       Instance_exports other (snd (init await_ exports imports w h))
       = Instance_exports other h.
Proof.
  unfold init. destruct (init_descriptor exports imports w) as [u w'| |]; try discriminate.
  unfold wrapExports. cbn.
  pose proof (wrapExports_loop_objects (entries exports) (snd (fresh h))) as Hobj.
  destruct (wrapExports_loop await_ (entries exports) _) as [props h1]. cbn in *.
  intros H. injection H as <- <-. unfold Instance_exports. cbn. split.
  - apply lookup_insert_eq.
  - intros other Hne. rewrite lookup_insert_ne by congruence. rewrite Hobj. reflexivity.
Qed.

Lemma wrapExports_loop_registry (props : list (string * ExportVal Function)) (h : Heap)
      (name : string) (fn : Function) :
  lookup_prop name props = Some (ExFunction fn) ->
  startsWith_asyncify name = false ->
  exists w,
    lookup_prop name (fst (wrapExports_loop await_ props h)) = Some (ExFunction (Async w))
    /\ WRAPPED_EXPORTS (snd (wrapExports_loop await_ props h)) !! fun_id fn = Some w.
Proof.
  revert h. induction props as [|[n v] rest IH]; intros h Hl Hname; cbn in *; [discriminate|].
  destruct (String.eqb n name) eqn:En.
  - apply String.eqb_eq in En. subst n. injection Hl as ->.
    unfold wrapExport. rewrite Hname. cbn [negb].
    pose proof (wrapExportFn_registers await_ fn h) as Hreg.
    destruct (wrapExportFn await_ fn h) as [w h1]. cbn [fst snd] in Hreg.
    pose proof (wrapExports_loop_keeps await_ rest h1 (fun_id fn) w Hreg) as Hkeep.
    destruct (wrapExports_loop await_ rest h1) as [rest' h2]. cbn in *.
    rewrite String.eqb_refl. exists w. auto.
  - destruct (wrapExport await_ n v h) as [v' h1].
    specialize (IH h1 Hl Hname).
    destruct (wrapExports_loop await_ rest h1) as [rest' h2]. cbn in *.
    rewrite En. exact IH.
Qed.

(** X14. A function the module exports under two names (neither starting
    with [asyncify_]) is one wrapper on the wrapped surface, and the registry
    maps the function to that wrapper afterwards, so that wrapping it again
    yields it once more. *)
Theorem aliases_share_a_wrapper (exports : Exports Function) (h : Heap)
        (name1 name2 : string) (fn1 fn2 : Function) :
  lookup_prop name1 (entries exports) = Some (ExFunction fn1) ->
  lookup_prop name2 (entries exports) = Some (ExFunction fn2) ->
  fun_id fn1 = fun_id fn2 ->
  startsWith_asyncify name1 = false ->
  startsWith_asyncify name2 = false ->
  exists w,
    lookup_prop name1 (entries (fst (wrapExports await_ exports h)))
    = Some (ExFunction (Async w))
    /\ lookup_prop name2 (entries (fst (wrapExports await_ exports h)))
       = Some (ExFunction (Async w))
    /\ wrapExportFn await_ fn1 (snd (wrapExports await_ exports h))
       = (w, snd (wrapExports await_ exports h)).
Proof.
  intros Hl1 Hl2 Hid Hn1 Hn2. rewrite wrapExports_entries.
  destruct (wrapExports_loop_registry (entries exports) (snd (fresh h)) name1 fn1 Hl1 Hn1)
    as (w1 & Hw1 & Hr1).
  destruct (wrapExports_loop_registry (entries exports) (snd (fresh h)) name2 fn2 Hl2 Hn2)
    as (w2 & Hw2 & Hr2).
  rewrite <- Hid, Hr1 in Hr2. injection Hr2 as <-.
  exists w1. split; [exact Hw1|]. split; [exact Hw2|].
  apply wrapExportFn_cached. unfold wrapExports. cbn.
  destruct (wrapExports_loop await_ (entries exports) _) as [props h1]. exact Hr1.
Qed.

(** X15. Reading a member through the import proxies, in a heap whose next
    identity no imported function bears.  Without an import object there is
    no proxy.  A module table that the import object holds locked
    (non-writable and non-configurable) cannot be read at all: the outer
    proxy reports a new proxy, not the table, and the read throws a
    [TypeError].  Otherwise a member of a missing table or a missing member
    reads as [undefined], without an exception; a member that is not a
    function is handed over as it is, locked or not; a function member comes
    back as a new function object behaving as the import wrapper of that
    function, unless the table holds it locked: then the wrapper is made and
    the read throws a [TypeError].  No read touches the registry of export
    wrappers. *)
Theorem import_proxy_reads
        (imports : Target (Target (ExportVal Function)))
        (moduleName name : string) (h : Heap) :
  let module := default empty_target (lookup_prop moduleName (target_props imports)) in
  (forall fn, lookup_prop name (target_props module) = Some (ExFunction fn) ->
              fun_id fn <> next_id h) ->
  @wrapImports Host Frames Datatypes.None = Datatypes.None
  /\ exists wrapped,
      wrapImports (Some imports) = Some wrapped
      /\ WRAPPED_EXPORTS (snd (read_import wrapped moduleName name h)) = WRAPPED_EXPORTS h
      /\ WRAPPED_EXPORTS_objects (snd (read_import wrapped moduleName name h))
         = WRAPPED_EXPORTS_objects h
      /\ (locked imports moduleName = true ->
          read_import wrapped moduleName name h = (inl TypeError, h))
      /\ (locked imports moduleName = false ->
          match lookup_prop name (target_props module) with
          | Some (ExFunction fn) =>
              read_import wrapped moduleName name h
              = (if locked module name then inl TypeError
                 else inr (Some (ExFunction
                                   {| fun_id := next_id h;
                                      fun_call := wrapImportFn_closure (fun_call fn) |})),
                 snd (fresh h))
          | other => read_import wrapped moduleName name h = (inr other, h)
          end).
Proof.
  intros module Hfresh.
  split; [reflexivity|]. eexists. split; [reflexivity|].
  unfold read_import, wrapModuleImports, proxyGet. cbn beta iota. cbn [negb].
  rewrite andb_true_r. fold module.
  destruct (locked imports moduleName) eqn:Hlock.
  { repeat split. intros H; discriminate H. }
  destruct (lookup_prop name (target_props module)) as [[fn|g| |]|] eqn:Hname.
  - cbn. pose proof (Hfresh fn eq_refl) as Hne. apply Nat.eqb_neq in Hne.
    rewrite Hne. cbn [negb]. rewrite andb_true_r.
    destruct (locked module name); repeat split; intros H; discriminate H.
  - cbn. rewrite Nat.eqb_refl, andb_false_r.
    repeat split; intros H; discriminate H.
  - cbn. rewrite andb_false_r. repeat split; intros H; discriminate H.
  - cbn. rewrite andb_false_r. repeat split; intros H; discriminate H.
  - cbn. rewrite andb_false_r. repeat split; intros H; discriminate H.
Qed.

End SurfaceFacts.

(** ** The wrappers keep to the state machine *)

Section Protocol.

Context {Host Frames : Type}.
Local Abbreviation World := (World Host Frames).
Local Abbreviation JsFn := (@JsFn Host Frames).
Variable await_ : Val -> M Host Frames Val.

Lemma lawful_control (w : World) (op : EngineOp) (data : Z) :
  lawful w -> allowed (asyncify_state (instance w)) op ->
  lawful (with_instance (control op (state_after op) data (instance w)) w).
Proof.
  intros Hw Hop. unfold lawful. cbn.
  apply (legal_step _ (asyncify_state (instance w))); assumption.
Qed.

Lemma lawful_same_instance (w w' : World) :
  instance w' = instance w -> lawful w -> lawful w'.
Proof. unfold lawful. intros ->. auto. Qed.

Lemma lawful_view_set (w : World) (v : Int32Array) (k : Z) (n : option Z) :
  lawful w -> lawful (with_instance (view_set v k n (instance w)) w).
Proof.
  unfold lawful. cbn. destruct (view_set_control v k n (instance w)) as (-> & _ & -> & _). auto.
Qed.

Lemma lawful_suspended_with (v : Val) (w : World) :
  lawful w -> asyncify_state (instance w) = State.None -> lawful (suspended_with v w).
Proof.
  intros Hw Hst. unfold suspended_with.
  set (w' := with_instance
               match update_stack_area (this w) with
               | Some hk => view_set (hook_view hk) 1
                                    (export_to_number (instance w) (hook_source hk))
                                    (instance w)
               | Datatypes.None => instance w
               end w).
  assert (Hw' : lawful w' /\ asyncify_state (instance w') = State.None).
  { subst w'. destruct (update_stack_area (this w)) as [hk|].
    - split; [apply lawful_view_set, Hw|]. cbn.
      rewrite (proj1 (view_set_control _ _ _ _)). exact Hst.
    - split; [eapply lawful_same_instance; [|exact Hw]; reflexivity|]. exact Hst. }
  destruct Hw' as [Hl Hs].
  pose proof (lawful_control w' (StartUnwind (data_addr (this w)))
                             (to_int32 (data_addr (this w))) Hl Hs) as H.
  eapply lawful_same_instance; [|exact H]. reflexivity.
Qed.

Lemma wrapImportFn_closure_busy (fn : JsFn) (args : list Val) (w : World) :
  asyncify_state (instance w) <> State.Rewinding ->
  asyncify_state (instance w) <> State.None ->
  wrapImportFn_closure fn args w
  = Throw (InvalidAsyncState (asyncify_state (instance w))) w.
Proof.
  intros Hrew Hidle.
  cbv [wrapImportFn_closure bind getState assertNoneState asyncify_get_state gets
       throw ret State.None State.Rewinding] in *.
  destruct (asyncify_state (instance w) =? 2) eqn:E2;
    [apply Z.eqb_eq in E2; contradiction|].
  cbn. destruct (asyncify_state (instance w) =? 0) eqn:E0;
    [apply Z.eqb_eq in E0; contradiction|].
  reflexivity.
Qed.

(** X16. The import wrapper keeps to the state machine: when the host
    function, run in a lawful world, ends in a lawful world and returns in
    the state it was called in, so does the wrapped import.  It stops a
    rewind only in state Rewinding and starts an unwind only in state None. *)
Theorem import_wrapper_keeps_lawful (fn : JsFn) (args : list Val) :
  keeps_lawful (fn args) ->
  (forall w v w1, fn args w = Ok v w1 ->
                  asyncify_state (instance w1) = asyncify_state (instance w)) ->
  keeps_lawful (wrapImportFn_closure fn args).
Proof.
  intros Hfn Hstate w Hw.
  destruct (Z.eq_dec (asyncify_state (instance w)) State.Rewinding) as [Hrew|Hrew].
  - rewrite wrapImportFn_closure_rewinding by assumption.
    apply (lawful_control w StopRewind). + exact Hw. + exact Hrew.
  - destruct (Z.eq_dec (asyncify_state (instance w)) State.None) as [Hidle|Hbusy].
    + rewrite wrapImportFn_closure_idle by assumption.
      specialize (Hfn w Hw). specialize (Hstate w).
      destruct (fn args w) as [v w1|e w1|]; try exact Hfn.
      destruct (isPromise v); [|exact Hfn].
      specialize (Hstate v w1 eq_refl).
      unfold suspended_with.
      set (w1' := with_instance
                    match update_stack_area (this w1) with
                    | Some hk => view_set (hook_view hk) 1
                                         (export_to_number (instance w1) (hook_source hk))
                                         (instance w1)
                    | Datatypes.None => instance w1
                    end w1).
      assert (Hw1' : lawful w1' /\ asyncify_state (instance w1') = State.None).
      { subst w1'. destruct (update_stack_area (this w1)) as [hk|].
        - split; [apply lawful_view_set, Hfn|]. cbn.
          rewrite (proj1 (view_set_control _ _ _ _)). congruence.
        - split; [eapply lawful_same_instance; [|exact Hfn]; reflexivity|]. cbn. congruence. }
      destruct Hw1' as [Hl Hs].
      pose proof (lawful_control w1' (StartUnwind (data_addr (this w1)))
                                 (to_int32 (data_addr (this w1))) Hl Hs) as H.
      eapply lawful_same_instance; [|exact H]. reflexivity.
    + cbv [wrapImportFn_closure bind getState assertNoneState asyncify_get_state gets
           throw ret State.None State.Rewinding] in *.
      destruct (asyncify_state (instance w) =? 2) eqn:E2;
        [apply Z.eqb_eq in E2; contradiction|].
      cbn. destruct (asyncify_state (instance w) =? 0) eqn:E0;
        [apply Z.eqb_eq in E0; contradiction|].
      cbn. exact Hw.
Qed.

Lemma export_loop_keeps_lawful (fn : JsFn) (args : list Val) (fuel : nat) :
  keeps_lawful (fn args) ->
  (forall v, keeps_lawful (await_ v)) ->
  forall (result : Val) (w : World),
    lawful w ->
    match export_loop await_ fuel fn args result w with
    | Some (Ok _ w') | Some (Throw _ w') => lawful w'
    | _ => True
    end.
Proof.
  intros Hfn Hawait. induction fuel as [|fuel IH]; intros result w Hw; [exact I|].
  rewrite export_loop_S.
  destruct (asyncify_state (instance w) =? State.Unwinding) eqn:E.
  - apply Z.eqb_eq in E. rewrite loop_body_awaits.
    assert (Hu : lawful (unwound w)) by (apply (lawful_control w StopUnwind); assumption).
    specialize (Hawait (value (this w)) (unwound w) Hu).
    destruct (await_ (value (this w)) (unwound w)) as [settled w2|e w2|]; try exact Hawait.
    assert (Hv : lawful (with_value settled w2))
      by (eapply lawful_same_instance; [|exact Hawait]; reflexivity).
    destruct (Z.eq_dec (asyncify_state (instance (with_value settled w2))) State.None)
      as [Hidle|Hbusy].
    + rewrite (assertNoneState_idle _ Hidle).
      pose proof (lawful_control (with_value settled w2)
                    (StartRewind (data_addr (this (with_value settled w2))))
                    (to_int32 (data_addr (this (with_value settled w2)))) Hv Hidle) as Hr.
      specialize (Hfn _ Hr). cbn [state_after] in Hfn.
      destruct (fn args _) as [result' w5|e w5|]; try exact Hfn.
      apply IH, Hfn.
    + rewrite (assertNoneState_busy _ Hbusy). exact Hv.
  - unfold bind.
    destruct (Z.eq_dec (asyncify_state (instance w)) State.None) as [Hidle|Hbusy].
    + rewrite (assertNoneState_idle _ Hidle). exact Hw.
    + rewrite (assertNoneState_busy _ Hbusy). exact Hw.
Qed.

(** X17. The export wrapper keeps to the state machine: when the original
    export and the scheduler, run in a lawful world, end in a lawful world,
    every way the wrapped export settles leaves a lawful world.  It stops an
    unwind only in state Unwinding and starts a rewind only in state None. *)
Theorem export_wrapper_keeps_lawful (fuel : nat) (fn : JsFn) (args : list Val) (w : World) :
  keeps_lawful (fn args) ->
  (forall v, keeps_lawful (await_ v)) ->
  lawful w ->
  match newExport await_ fuel fn args w with
  | Some (Ok _ w') | Some (Throw _ w') => lawful w'
  | _ => True
  end.
Proof.
  intros Hfn Hawait Hw. unfold newExport, bind.
  destruct (Z.eq_dec (asyncify_state (instance w)) State.None) as [Hidle|Hbusy].
  - rewrite (assertNoneState_idle _ Hidle). pose proof (Hfn w Hw) as H.
    destruct (fn args w) as [result w1|e w1|]; try exact H.
    apply export_loop_keeps_lawful; assumption.
  - rewrite (assertNoneState_busy _ Hbusy). exact Hw.
Qed.

End Protocol.

(** ** Witnesses *)

(** Witness for X7: no stack symbols, zeroed memory. *)
Lemma init_seeds_defaults_witness :
  exists w1,
    fst (init fulfils_with_7 bare_exports Datatypes.None (stack_world 0) empty_heap)
    = Ok (fst (wrapExports fulfils_with_7 bare_exports empty_heap)) w1
    /\ data_addr (this w1) = 16
    /\ word_at w1 16 = 24
    /\ word_at w1 20 = 1024
    /\ update_stack_area (this w1) = Datatypes.None.
Proof.
  apply (init_seeds_defaults fulfils_with_7 bare_exports Datatypes.None (stack_world 0)
           empty_heap 16);
    [reflexivity | reflexivity | lia | reflexivity | cbn; lia
    | reflexivity | reflexivity | left; reflexivity].
Defined.

(** Witness for X8: a descriptor set by the module itself. *)
Lemma init_keeps_seeded_descriptor_witness :
  exists w1,
    fst (init fulfils_with_7 stack_exports Datatypes.None seeded_world empty_heap)
    = Ok (fst (wrapExports fulfils_with_7 stack_exports empty_heap)) w1
    /\ instance w1 = instance seeded_world
    /\ data_addr (this w1) = 16
    /\ update_stack_area (this w1) = Datatypes.None.
Proof.
  apply (init_keeps_seeded_descriptor fulfils_with_7 stack_exports Datatypes.None
           seeded_world empty_heap 16);
    [reflexivity | reflexivity | lia | reflexivity | cbn; lia
    | left; vm_compute; discriminate].
Defined.

(** Witness for X9: the stack-seeded descriptor of the earlier example. *)
Lemma init_again_changes_no_word_witness :
  exists w1,
    fst (init fulfils_with_7 stack_exports Datatypes.None (stack_world 500) empty_heap)
    = Ok (fst (wrapExports fulfils_with_7 stack_exports empty_heap)) w1
    /\ exists w2,
        fst (init fulfils_with_7 stack_exports Datatypes.None
                  (with_this {| value := VUndefined; data_addr := 0;
                                update_stack_area := Datatypes.None |} w1)
                  empty_heap)
        = Ok (fst (wrapExports fulfils_with_7 stack_exports empty_heap)) w2
        /\ forall a, word_at w2 a = word_at w1 a.
Proof.
  destruct (init_again_changes_no_word fulfils_with_7 stack_exports Datatypes.None
              (stack_world 500) empty_heap 16)
    as (w1 & Hinit & Hagain);
    [reflexivity | reflexivity | lia | reflexivity | cbn; lia |].
  exists w1. split; [exact Hinit|].
  exact (Hagain (with_this {| value := VUndefined; data_addr := 0;
                              update_stack_area := Datatypes.None |} w1)
                empty_heap eq_refl).
Defined.

(** Witness for X10: a module without memory, instantiated without imports. *)
Lemma init_without_memory_throws_witness :
  exists w1,
    init fulfils_with_7 memoryless_exports Datatypes.None (stack_world 0) empty_heap
    = (Throw TypeError w1, empty_heap)
    /\ instance w1 = instance (stack_world 0).
Proof.
  apply (init_without_memory_throws fulfils_with_7 memoryless_exports Datatypes.None
           (stack_world 0) empty_heap); [reflexivity | discriminate].
Defined.

(** Witness for X11: the descriptor placed at 18. *)
Lemma init_misplaced_descriptor_throws_witness :
  exists w1,
    init fulfils_with_7 misplaced_exports Datatypes.None misplaced_world empty_heap
    = (Throw RangeError w1, empty_heap)
    /\ instance w1 = instance misplaced_world
    /\ data_addr (this w1) = 18.
Proof.
  apply (init_misplaced_descriptor_throws fulfils_with_7 misplaced_exports Datatypes.None
           misplaced_world empty_heap 18);
    [reflexivity | reflexivity | right; left; vm_compute; discriminate].
Defined.

(** Witness for X12: the table of [bare_exports]. *)
Lemma wrapExports_keeps_shape_witness :
  lookup_prop "table" (entries (fst (wrapExports fulfils_with_7 bare_exports empty_heap)))
  = Some ExTable.
Proof.
  apply (proj2 (proj2 (wrapExports_keeps_shape fulfils_with_7 bare_exports empty_heap))
           "table"%string ExTable); [reflexivity | discriminate].
Defined.

(** Witness for X13. *)
Lemma exports_getter_after_init_witness :
  exists newExports,
    Instance_exports stack_exports
      (snd (init fulfils_with_7 stack_exports Datatypes.None (stack_world 500) empty_heap))
    = Some newExports.
Proof.
  eexists.
  eapply (proj1 (exports_getter_after_init fulfils_with_7 stack_exports Datatypes.None
                   (stack_world 500) _ empty_heap _ _)).
  Unshelve. 3: reflexivity.
Defined.

(** Witness for X14: [main] and [_start] of [bare_exports]. *)
Lemma aliases_share_a_wrapper_witness :
  exists w,
    lookup_prop "main" (entries (fst (wrapExports fulfils_with_7 bare_exports empty_heap)))
    = Some (ExFunction (Async w))
    /\ lookup_prop "_start" (entries (fst (wrapExports fulfils_with_7 bare_exports empty_heap)))
       = Some (ExFunction (Async w)).
Proof.
  destruct (aliases_share_a_wrapper fulfils_with_7 bare_exports empty_heap
              "main" "_start" raw_main raw_main eq_refl eq_refl eq_refl eq_refl eq_refl)
    as (w & H1 & H2 & _).
  exists w. split; assumption.
Defined.

(** Witness for X16: a counting host function returning a promise. *)
Lemma import_wrapper_keeps_lawful_witness :
  keeps_lawful (wrapImportFn_closure (counted (a_promise 1)) []).
Proof.
  apply (import_wrapper_keeps_lawful (counted (a_promise 1)) []).
  - intros w Hw. exact Hw.
  - intros w v w1 H. injection H as _ <-. reflexivity.
Defined.

Lemma suspending_export_keeps_lawful (args : list Val) :
  keeps_lawful (suspending_export args).
Proof.
  intros w Hw. unfold suspending_export.
  destruct (asyncify_state (instance w) =? State.None) eqn:E.
  - apply Z.eqb_eq in E. apply lawful_suspended_with; assumption.
  - apply Z.eqb_neq in E.
    destruct (Z.eq_dec (asyncify_state (instance w)) State.Rewinding) as [Hrew|Hrew].
    + rewrite wrapImportFn_closure_rewinding by assumption.
      apply (lawful_control w StopRewind); assumption.
    + rewrite wrapImportFn_closure_busy by assumption. exact Hw.
Qed.

(** Witness for X17: an export that suspends once, from the idle world.  The
    wrapper drives one whole cycle (stop the unwind, await, start the rewind,
    replay), and the log of the four control operations it leaves is
    lawful. *)
Lemma export_wrapper_keeps_lawful_witness :
  newExport fulfils_with_7 2 suspending_export [] (counting_world State.None VUndefined)
  = Some (Ok (VNum 7) (after_cycles 1 (VNum 7) 0))
  /\ control_log (instance (after_cycles 1 (VNum 7) 0))
     = [StartUnwind 16; StopUnwind; StartRewind 16; StopRewind]
  /\ lawful (after_cycles 1 (VNum 7) 0).
Proof.
  assert (Hrun : newExport fulfils_with_7 2 suspending_export []
                           (counting_world State.None VUndefined)
                 = Some (Ok (VNum 7) (after_cycles 1 (VNum 7) 0))) by reflexivity.
  split; [exact Hrun|]. split; [reflexivity|].
  pose proof (export_wrapper_keeps_lawful fulfils_with_7 2 suspending_export []
                (counting_world State.None VUndefined)
                (suspending_export_keeps_lawful [])
                (fun v w Hw => Hw)
                legal_idle) as H.
  rewrite Hrun in H. exact H.
Defined.

(** Witness for X15: the function member of a frozen table.  The wrapper is
    made, and the read throws. *)
Lemma import_proxy_reads_witness :
  exists wrapped,
    wrapImports (Some frozen_imports) = Some wrapped
    /\ read_import wrapped "env" "now" empty_heap = (inl TypeError, snd (fresh empty_heap)).
Proof.
  destruct (import_proxy_reads frozen_imports "env" "now" empty_heap)
    as (_ & wrapped & Hwrapped & _ & _ & _ & Hread).
  - intros fn Hfn. cbn in Hfn. injection Hfn as <-. cbn. lia.
  - exists wrapped. split; [exact Hwrapped|]. exact (Hread eq_refl).
Defined.

